(** * Matamazon: an in-memory inventory and order ledger

    A shallow embedding of [matamazon.py] and the verification of its
    ledger operations: registration, catalog upsert, order placement,
    deletion with integrity checks, search and order export.

    Modelling conventions.
    - A Python [int] is a [Z] (unbounded); a Python [float] is a binary64
      primitive float, so that [nan], the infinities, signed zeros and
      rounding behave as in CPython.
    - A Python [str] is a [string], read as the sequence of its code
      points; only code points below 256 are representable.
    - A [dict] is an association list in insertion order: assignment to an
      existing key keeps its position, a new key is appended, deletion
      removes the binding.
    - A method of [MatamazonSystem] is a function from the ledger to an
      outcome (a value or a raised exception) and the ledger it leaves
      behind: a raise does not roll back earlier mutations.
    - Arguments are statically typed ([Z] for an id or a quantity, [string]
      for a class token), so the [isinstance] tests of the validators are
      true by typing and only their sign tests remain. *)

From Stdlib Require Import ZArith List String Ascii Bool Lia Floats.
From Stdlib Require Import Permutation Sorted DecimalString.
From Stdlib Require Uint63.
Import ListNotations.

Local Open Scope string_scope.
Local Open Scope Z_scope.

(* ================================================================== *)
(** * Python built-ins used by the program *)
(* ================================================================== *)

(** ** Exceptions and outcomes *)

Inductive exn : Type :=
| InvalidIdException (msg : string)
| InvalidPriceException (msg : string)
| OverflowError (msg : string).

Inductive result (A : Type) : Type :=
| Ok (a : A)
| Raise (e : exn).
Arguments Ok {A} a.
Arguments Raise {A} e.

Definition rbind {A B} (r : result A) (k : A -> result B) : result B :=
  match r with
  | Ok a => k a
  | Raise e => Raise e
  end.

(** [is_invalid_id r]: the call raised [InvalidIdException]. *)
Definition is_invalid_id {A} (r : result A) : bool :=
  match r with
  | Raise (InvalidIdException _) => true
  | _ => false
  end.

(** ** [str(int)] *)

Definition str_of_int (z : Z) : string := NilZero.string_of_int (Z.to_int z).

(** ** Numbers: an [int] or a [float] *)

Inductive number : Type :=
| NumInt (z : Z)
| NumFloat (f : float).

(** [int -> float] as [PyLong_AsDouble] does it: the nearest binary64
    value, ties to even; an integer that would round to an infinity, that
    is, of magnitude at least [2^1024 - 2^970], raises [OverflowError]. *)
Definition float_overflow_bound : Z := 2 ^ 1024 - 2 ^ 970.

Definition int_to_float (z : Z) : result float :=
  if float_overflow_bound <=? Z.abs z
  then Raise (OverflowError "int too large to convert to float")
  else Ok (SF2Prim (binary_normalize prec emax z 0 false)).

(** [float(value)] for a number. *)
Definition to_float (value : number) : result float :=
  match value with
  | NumInt z => int_to_float z
  | NumFloat f => Ok f
  end.

(** [value < 0] for a number. *)
Definition number_ltb_zero (value : number) : bool :=
  match value with
  | NumInt z => z <? 0
  | NumFloat f => PrimFloat.ltb f 0%float
  end.

(** [x * n] for a float [x] and an int [n]. *)
Definition float_mul_int (x : float) (n : Z) : result float :=
  rbind (int_to_float n) (fun y => Ok (PrimFloat.mul x y)).

(** ** Strings *)

Fixpoint prefixb (p s : string) : bool :=
  match p, s with
  | EmptyString, _ => true
  | String a p', String b s' => Ascii.eqb a b && prefixb p' s'
  | String _ _, EmptyString => false
  end.

(** [q in s] for two strings. *)
Fixpoint str_contains (q s : string) : bool :=
  prefixb q s ||
  match s with
  | EmptyString => false
  | String _ s' => str_contains q s'
  end.

(** [str.isspace] on one code point below 256. *)
Definition is_space (c : ascii) : bool :=
  let n := N_of_ascii c in
  ((9 <=? n) && (n <=? 13) || (28 <=? n) && (n <=? 32) ||
   (n =? 133) || (n =? 160))%N.

Fixpoint lstrip (s : string) : string :=
  match s with
  | String c s' => if is_space c then lstrip s' else s
  | EmptyString => EmptyString
  end.

Fixpoint rstrip (s : string) : string :=
  match s with
  | EmptyString => EmptyString
  | String c s' =>
      match rstrip s' with
      | EmptyString => if is_space c then EmptyString else String c EmptyString
      | r => String c r
      end
  end.

Definition strip (s : string) : string := rstrip (lstrip s).

(** [str.lower] on one code point below 256. *)
Definition lower_char (c : ascii) : ascii :=
  let n := N_of_ascii c in
  if ((65 <=? n) && (n <=? 90) ||
      (192 <=? n) && (n <=? 222) && negb (n =? 215))%N
  then ascii_of_N (n + 32)
  else c.

Fixpoint lower (s : string) : string :=
  match s with
  | EmptyString => EmptyString
  | String c s' => String (lower_char c) (lower s')
  end.

(** ** Insertion-ordered dictionaries *)

Class Key (K : Type) : Type := {
  key_eqb : K -> K -> bool;
  key_eqb_eq : forall x y, key_eqb x y = true <-> x = y
}.

#[global] Instance Key_Z : Key Z :=
  {| key_eqb := Z.eqb; key_eqb_eq := Z.eqb_eq |}.

#[global] Instance Key_string : Key string :=
  {| key_eqb := String.eqb; key_eqb_eq := String.eqb_eq |}.

Definition dict (K V : Type) : Type := list (K * V).

Section Dict.
Context {K V : Type} `{Key K}.

(** [d.get(k)] *)
Fixpoint dict_get (k : K) (d : dict K V) : option V :=
  match d with
  | [] => None
  | (k', v) :: d' => if key_eqb k k' then Some v else dict_get k d'
  end.

(** [k in d] *)
Definition dict_mem (k : K) (d : dict K V) : bool :=
  match dict_get k d with
  | Some _ => true
  | None => false
  end.

(** [d[k] = v] *)
Fixpoint dict_set (k : K) (v : V) (d : dict K V) : dict K V :=
  match d with
  | [] => [(k, v)]
  | (k', v') :: d' =>
      if key_eqb k k' then (k', v) :: d' else (k', v') :: dict_set k v d'
  end.

(** [del d[k]] for a key that is present (and [d.pop(k, None)] at large) *)
Fixpoint dict_del (k : K) (d : dict K V) : dict K V :=
  match d with
  | [] => []
  | (k', v') :: d' =>
      if key_eqb k k' then d' else (k', v') :: dict_del k d'
  end.

(** [d.keys()] and [d.values()], in iteration order *)
Definition dict_keys (d : dict K V) : list K := map fst d.
Definition dict_values (d : dict K V) : list V := map snd d.
End Dict.

(** ** [repr(float)]

    CPython prints the shortest decimal string that reads back as the same
    binary64 value (and, among the shortest, the one nearest to it), in
    exponent form when the decimal point would fall before the fourth
    leading zero or after the sixteenth digit. *)

Section FloatRepr.

(** The value [n * 2^(e-2)] against [c * 10^(k-nd)], both sides brought
    to integers: [n * pscale] against [c * qscale]. *)
Definition pscale (e k nd : Z) : Z := 2 ^ Z.max (e - 2) 0 * 10 ^ Z.max (nd - k) 0.
Definition qscale (e k nd : Z) : Z := 2 ^ Z.max (2 - e) 0 * 10 ^ Z.max (k - nd) 0.

(** The decimal exponent [k] of [x = m * 2^e]: [10^(k-1) <= x < 10^k]. *)
Fixpoint decpt_below (fuel : nat) (m e j : Z) : Z :=
  match fuel with
  | O => 1 - j
  | S fuel' =>
      if 4 * m * pscale e 0 j >=? qscale e 0 j then 1 - j
      else decpt_below fuel' m e (j + 1)
  end.

Definition decimal_point (m e : Z) : Z :=
  let fl := 4 * m * pscale e 0 0 / qscale e 0 0 in
  if 1 <=? fl then Z.of_nat (String.length (str_of_int fl))
  else decpt_below 400 m e 1.

(** Four times the ends of the interval of reals that round to
    [m * 2^e], in units of [2^e]. *)
Definition round_lo (m e : Z) : Z :=
  if (m =? 2 ^ 52) && (-1074 <? e) then 4 * m - 1 else 4 * m - 2.
Definition round_hi (m : Z) : Z := 4 * m + 2.

Definition reads_back (m e k nd c : Z) : bool :=
  let p := pscale e k nd in
  let q := qscale e k nd in
  if Z.even m
  then (round_lo m e * p <=? c * q) && (c * q <=? round_hi m * p)
  else (round_lo m e * p <? c * q) && (c * q <? round_hi m * p).

(** The [nd]-digit candidate for [m * 2^e], if one reads back. *)
Definition candidate (m e k nd : Z) : option Z :=
  let p := pscale e k nd in
  let q := qscale e k nd in
  let fl := 4 * m * p / q in
  let r := 4 * m * p - fl * q in
  let lo_ok := reads_back m e k nd fl in
  let hi_ok := reads_back m e k nd (fl + 1) in
  if lo_ok && hi_ok then
    if 2 * r <? q then Some fl
    else if q <? 2 * r then Some (fl + 1)
    else if Z.even fl then Some fl else Some (fl + 1)
  else if lo_ok then Some fl
  else if hi_ok then Some (fl + 1)
  else None.

Fixpoint shortest (fuel : nat) (m e k nd : Z) : Z * Z :=
  match fuel with
  | O => (4 * m * pscale e k nd / qscale e k nd, nd)
  | S fuel' =>
      match candidate m e k nd with
      | Some c => (c, nd)
      | None => shortest fuel' m e k (nd + 1)
      end
  end.

Fixpoint strip_zeros (s : string) : string :=
  match s with
  | EmptyString => EmptyString
  | String c s' =>
      match strip_zeros s' with
      | EmptyString => if Ascii.eqb c "0" then EmptyString else String c EmptyString
      | r => String c r
      end
  end.

(** The digits of the shortest string and the position of the point. *)
Definition shortest_digits (m e : Z) : string * Z :=
  let k := decimal_point m e in
  let '(c, nd) := shortest 17 m e k 1 in
  let ds := str_of_int c in
  (strip_zeros ds, k + (Z.of_nat (String.length ds) - nd)).

Fixpoint zeros (n : nat) : string :=
  match n with
  | O => EmptyString
  | S n' => String "0" (zeros n')
  end.

Definition exponent_text (x : Z) : string :=
  (if x <? 0 then "-" else "+") ++
  (if Z.abs x <? 10 then "0" else EmptyString) ++ str_of_int (Z.abs x).

Definition format_short (ds : string) (decpt : Z) : string :=
  let n := Z.of_nat (String.length ds) in
  if (decpt <=? -4) || (16 <? decpt) then
    match ds with
    | String d EmptyString => String d ("e" ++ exponent_text (decpt - 1))
    | String d rest => String d ("." ++ rest ++ "e" ++ exponent_text (decpt - 1))
    | EmptyString => EmptyString
    end
  else if decpt <=? 0 then "0." ++ zeros (Z.to_nat (- decpt)) ++ ds
  else if decpt <? n then
    substring 0 (Z.to_nat decpt) ds ++ "." ++
    substring (Z.to_nat decpt) (Z.to_nat (n - decpt)) ds
  else ds ++ zeros (Z.to_nat (decpt - n)) ++ ".0".

Definition float_repr (x : float) : string :=
  match Prim2SF x with
  | S754_nan => "nan"
  | S754_infinity s => if s then "-inf" else "inf"
  | S754_zero s => if s then "-0.0" else "0.0"
  | S754_finite s m e =>
      let '(ds, decpt) := shortest_digits (Z.pos m) e in
      (if s then "-" else EmptyString) ++ format_short ds decpt
  end.

End FloatRepr.

(** ** [json.dump] of a [dict] from [str] to a [list] of [str]

    Default options: [ensure_ascii], items separated by a comma and a
    space, a key separated from its value by a colon and a space. *)

Definition hex_digit (n : N) : ascii :=
  if (n <? 10)%N then ascii_of_N (48 + n) else ascii_of_N (87 + n).

(** The double quote, code point 34. *)
Definition dquote : ascii := ascii_of_N 34.

Definition json_escape_char (c : ascii) : string :=
  let n := N_of_ascii c in
  if (n =? 34)%N then String "\" (String dquote EmptyString)
  else if (n =? 92)%N then "\\"
  else if (n =? 10)%N then "\n"
  else if (n =? 13)%N then "\r"
  else if (n =? 9)%N then "\t"
  else if (n =? 8)%N then "\b"
  else if (n =? 12)%N then "\f"
  else if ((32 <=? n) && (n <=? 126))%N then String c EmptyString
  else "\u00" ++ String (hex_digit (n / 16)) (String (hex_digit (n mod 16)) EmptyString).

Fixpoint json_escape (s : string) : string :=
  match s with
  | EmptyString => EmptyString
  | String c s' => json_escape_char c ++ json_escape s'
  end.

Definition json_string (s : string) : string :=
  String dquote (json_escape s ++ String dquote EmptyString).

Fixpoint join (sep : string) (l : list string) : string :=
  match l with
  | [] => EmptyString
  | [x] => x
  | x :: l' => x ++ sep ++ join sep l'
  end.

Definition json_list (l : list string) : string :=
  "[" ++ join ", " (map json_string l) ++ "]".

Definition json_dumps (d : dict string (list string)) : string :=
  "{" ++ join ", " (map (fun kv => json_string (fst kv) ++ ": " ++ json_list (snd kv)) d) ++ "}".

(* ================================================================== *)
(** * The program *)
(* ================================================================== *)

(** ** Helper functions *)

Definition is_valid_nonnegative_int (value : Z) : bool := 0 <=? value.

Definition validate_nonnegative_int (value : Z) (field_name : string) : result unit :=
  if negb (is_valid_nonnegative_int value)
  then Raise (InvalidIdException ("Invalid " ++ field_name ++ ": " ++ str_of_int value))
  else Ok tt.

Definition number_text (value : number) : string :=
  match value with
  | NumInt z => str_of_int z
  | NumFloat f => float_repr f
  end.

Definition validate_nonnegative_price (value : number) (field_name : string) : result unit :=
  if number_ltb_zero value
  then Raise (InvalidPriceException ("Invalid " ++ field_name ++ ": " ++ number_text value))
  else Ok tt.

Declare Scope result_scope.
Notation "x <- c1 ;; c2" := (rbind c1 (fun x => c2))
  (at level 61, c1 at next level, right associativity) : result_scope.
Notation "c1 ;; c2" := (rbind c1 (fun _ => c2))
  (at level 61, right associativity) : result_scope.
Delimit Scope result_scope with result.

(** ** Data classes *)

Module Customer.
Record t : Type := mk { id : Z; name : string; city : string; address : string }.

Definition init (id : Z) (name city address : string) : result t :=
  (validate_nonnegative_int id "id" ;;
   Ok (mk id name city address))%result.

Definition repr (self : t) : string :=
  "Customer(id=" ++ str_of_int (id self) ++ ", name='" ++ name self ++
  "', city='" ++ city self ++ "', address='" ++ address self ++ "')".
End Customer.

Module Supplier.
Record t : Type := mk { id : Z; name : string; city : string; address : string }.

Definition init (id : Z) (name city address : string) : result t :=
  (validate_nonnegative_int id "id" ;;
   Ok (mk id name city address))%result.

Definition repr (self : t) : string :=
  "Supplier(id=" ++ str_of_int (id self) ++ ", name='" ++ name self ++
  "', city='" ++ city self ++ "', address='" ++ address self ++ "')".
End Supplier.

Module Product.
Record t : Type := mk {
  id : Z; name : string; price : float; supplier_id : Z; quantity : Z
}.

Definition init (id : Z) (name : string) (price : number)
    (supplier_id quantity : Z) : result t :=
  (validate_nonnegative_int id "id" ;;
   validate_nonnegative_int supplier_id "supplier_id" ;;
   validate_nonnegative_int quantity "quantity" ;;
   validate_nonnegative_price price "price" ;;
   p <- to_float price ;;
   Ok (mk id name p supplier_id quantity))%result.

Definition repr (self : t) : string :=
  "Product(id=" ++ str_of_int (id self) ++ ", name='" ++ name self ++
  "', price=" ++ float_repr (price self) ++
  ", supplier_id=" ++ str_of_int (supplier_id self) ++
  ", quantity=" ++ str_of_int (quantity self) ++ ")".

(** [__lt__]: by ascending price, ties by id. *)
Definition lt (self other : t) : bool :=
  if negb (PrimFloat.eqb (price self) (price other))
  then PrimFloat.ltb (price self) (price other)
  else id self <? id other.

Definition set_quantity (q : Z) (self : t) : t :=
  mk (id self) (name self) (price self) (supplier_id self) q.
End Product.

Module Order.
Record t : Type := mk {
  id : Z; customer_id : Z; product_id : Z; quantity : Z; total_price : float
}.

Definition init (id customer_id product_id quantity : Z)
    (total_price : number) : result t :=
  (validate_nonnegative_int id "id" ;;
   validate_nonnegative_int customer_id "customer_id" ;;
   validate_nonnegative_int product_id "product_id" ;;
   validate_nonnegative_int quantity "quantity" ;;
   validate_nonnegative_price total_price "total_price" ;;
   tp <- to_float total_price ;;
   Ok (mk id customer_id product_id quantity tp))%result.

Definition repr (self : t) : string :=
  "Order(id=" ++ str_of_int (id self) ++
  ", customer_id=" ++ str_of_int (customer_id self) ++
  ", product_id=" ++ str_of_int (product_id self) ++
  ", quantity=" ++ str_of_int (quantity self) ++
  ", total_price=" ++ float_repr (total_price self) ++ ")".
End Order.

(** What [register_entity] is handed: an object with an [id] and, for the
    export, a [city]; either registry can hold either class. *)
Inductive Entity : Type :=
| ECustomer (c : Customer.t)
| ESupplier (s : Supplier.t).

Definition entity_id (entity : Entity) : Z :=
  match entity with
  | ECustomer c => Customer.id c
  | ESupplier s => Supplier.id s
  end.

Definition entity_city (entity : Entity) : string :=
  match entity with
  | ECustomer c => Customer.city c
  | ESupplier s => Supplier.city s
  end.

Definition entity_repr (entity : Entity) : string :=
  match entity with
  | ECustomer c => Customer.repr c
  | ESupplier s => Supplier.repr s
  end.

(** ** The ledger *)

Record MatamazonSystem : Type := mkSystem {
  customers : dict Z Entity;
  suppliers : dict Z Entity;
  products : dict Z Product.t;
  orders : dict Z Order.t;
  next_order_id : Z
}.

(** [MatamazonSystem()] *)
Definition init : MatamazonSystem := mkSystem [] [] [] [] 1.

Definition set_customers (f : dict Z Entity -> dict Z Entity) (self : MatamazonSystem) :=
  mkSystem (f (customers self)) (suppliers self) (products self) (orders self)
           (next_order_id self).
Definition set_suppliers (f : dict Z Entity -> dict Z Entity) (self : MatamazonSystem) :=
  mkSystem (customers self) (f (suppliers self)) (products self) (orders self)
           (next_order_id self).
Definition set_products (f : dict Z Product.t -> dict Z Product.t) (self : MatamazonSystem) :=
  mkSystem (customers self) (suppliers self) (f (products self)) (orders self)
           (next_order_id self).
Definition set_orders (f : dict Z Order.t -> dict Z Order.t) (self : MatamazonSystem) :=
  mkSystem (customers self) (suppliers self) (products self) (f (orders self))
           (next_order_id self).
Definition set_next_order_id (n : Z) (self : MatamazonSystem) :=
  mkSystem (customers self) (suppliers self) (products self) (orders self) n.

(** A method: the outcome and the ledger left behind. *)
Definition M (A : Type) : Type := MatamazonSystem -> result A * MatamazonSystem.

Definition ret {A} (a : A) : M A := fun self => (Ok a, self).
Definition raise {A} (e : exn) : M A := fun self => (Raise e, self).
Definition bind {A B} (m : M A) (k : A -> M B) : M B :=
  fun self =>
    match m self with
    | (Ok a, self') => k a self'
    | (Raise e, self') => (Raise e, self')
    end.
Definition lift {A} (r : result A) : M A := fun self => (r, self).
Definition get : M MatamazonSystem := fun self => (Ok self, self).
Definition modify (f : MatamazonSystem -> MatamazonSystem) : M unit :=
  fun self => (Ok tt, f self).

Declare Scope method_scope.
Delimit Scope method_scope with method.
Notation "x <- c1 ;; c2" := (bind c1 (fun x => c2))
  (at level 61, c1 at next level, right associativity) : method_scope.
Notation "c1 ;; c2" := (bind c1 (fun _ => c2))
  (at level 61, right associativity) : method_scope.

(** A [for] loop over a list whose body may raise. *)
Fixpoint for_each {A} (l : list A) (body : A -> M unit) : M unit :=
  match l with
  | [] => ret tt
  | x :: l' => (body x ;; for_each l' body)%method
  end.

(** ** [list.sort] through [__lt__]

    CPython sorts a list of fewer than 64 elements by taking the longest
    initial run (reversed when strictly descending) and inserting the
    remaining elements one by one at the place a binary search finds.
    Longer lists are cut into such runs, which are then merged; whenever
    [__lt__] is a strict weak order both give the one stable sorted
    arrangement, and the model below uses the first scheme at every
    length. *)

Section Sort.
Context {A : Type} (lt : A -> A -> bool).

(** Length of the run that starts the list [x :: l], given whether it
    descends. *)
Fixpoint run_length (descending : bool) (x : A) (l : list A) : nat :=
  match l with
  | [] => 1
  | y :: l' =>
      if Bool.eqb (lt y x) descending then S (run_length descending y l') else 1
  end.

Definition count_run (l : list A) : nat * bool :=
  match l with
  | [] => (O, false)
  | [x] => (1%nat, false)
  | x :: ((y :: _) as l') =>
      let descending := lt y x in
      (run_length descending x l', descending)
  end.

(** The binary search of [binarysort]: where [pivot] goes in [a], between
    [l] and [r]. *)
Fixpoint bisect (fuel : nat) (pivot : A) (a : list A) (l r : nat) : nat :=
  match fuel with
  | O => l
  | S fuel' =>
      let p := (l + Nat.div2 (r - l))%nat in
      let '(l', r') :=
        match nth_error a p with
        | Some x => if lt pivot x then (l, p) else (S p, r)
        | None => (l, p)
        end in
      if (l' <? r')%nat then bisect fuel' pivot a l' r' else l'
  end.

Definition insert_at (pivot : A) (a : list A) (l : nat) : list A :=
  firstn l a ++ pivot :: skipn l a.

(** [binarysort]: [a] is the sorted part, [rest] the elements still to
    insert. *)
Fixpoint binarysort (a rest : list A) : list A :=
  match rest with
  | [] => a
  | pivot :: rest' =>
      binarysort (insert_at pivot a (bisect (List.length a) pivot a 0 (List.length a))) rest'
  end.

Definition sorted (l : list A) : list A :=
  let '(n, descending) := count_run l in
  let run := firstn n l in
  binarysort (if descending then rev run else run) (skipn n l).
End Sort.

(** ** The methods of [MatamazonSystem] *)

Definition register_entity (entity : Entity) (is_customer : bool) : M unit :=
  (lift (validate_nonnegative_int (entity_id entity) "id") ;;
   self <- get ;;
   if dict_mem (entity_id entity) (customers self) ||
      dict_mem (entity_id entity) (suppliers self)
   then raise (InvalidIdException "Invalid id: already exists")
   else if is_customer
   then modify (set_customers (dict_set (entity_id entity) entity))
   else modify (set_suppliers (dict_set (entity_id entity) entity)))%method.

Definition add_or_update_product (product : Product.t) : M unit :=
  (self <- get ;;
   if negb (dict_mem (Product.supplier_id product) (suppliers self))
   then raise (InvalidIdException "Supplier does not exist")
   else
     match dict_get (Product.id product) (products self) with
     | None => modify (set_products (dict_set (Product.id product) product))
     | Some existing =>
         if negb (Product.supplier_id existing =? Product.supplier_id product)
         then raise (InvalidIdException "Cannot change supplier_id for existing product")
         else
           modify (set_products (dict_set (Product.id product)
             (Product.mk (Product.id existing) (Product.name product)
                (Product.price product) (Product.supplier_id existing)
                (Product.quantity product))))
     end)%method.

Definition msg_no_product : string := "The product does not exist in the system".
Definition msg_no_stock : string :=
  "The quantity requested for this product is greater than the quantity in stock".
Definition msg_accepted : string := "The order has been accepted in the system".

Definition place_order (customer_id product_id quantity : Z) : M string :=
  (lift (validate_nonnegative_int customer_id "customer_id") ;;
   lift (validate_nonnegative_int product_id "product_id") ;;
   lift (validate_nonnegative_int quantity "quantity") ;;
   self <- get ;;
   match dict_get product_id (products self) with
   | None => ret msg_no_product
   | Some product =>
       if quantity >? Product.quantity product
       then ret msg_no_stock
       else
         let product := Product.set_quantity (Product.quantity product - quantity) product in
         modify (set_products (dict_set product_id product)) ;;
         self <- get ;;
         let order_id := next_order_id self in
         modify (set_next_order_id (order_id + 1)) ;;
         total_price <- lift (float_mul_int (Product.price product) quantity) ;;
         order <- lift (Order.init order_id customer_id product_id quantity
                          (NumFloat total_price)) ;;
         modify (set_orders (dict_set order_id order)) ;;
         ret msg_accepted
   end)%method.

Definition remove_object (_id : Z) (class_type : string) : M (option Z) :=
  (lift (validate_nonnegative_int _id "id") ;;
   let ct := lower (strip class_type) in
   self <- get ;;
   if String.eqb ct "customer" then
     if negb (dict_mem _id (customers self))
     then raise (InvalidIdException ("Customer id does not exist: " ++ str_of_int _id))
     else
       for_each (dict_values (orders self)) (fun o =>
         if Order.customer_id o =? _id
         then raise (InvalidIdException
                ("Cannot remove customer with existing orders: " ++ str_of_int _id))
         else ret tt) ;;
       modify (set_customers (dict_del _id)) ;;
       ret None
   else if String.eqb ct "product" then
     if negb (dict_mem _id (products self))
     then raise (InvalidIdException ("Product id does not exist: " ++ str_of_int _id))
     else
       for_each (dict_values (orders self)) (fun o =>
         if Order.product_id o =? _id
         then raise (InvalidIdException
                ("Cannot remove product with existing orders: " ++ str_of_int _id))
         else ret tt) ;;
       modify (set_products (dict_del _id)) ;;
       ret None
   else if String.eqb ct "supplier" then
     if negb (dict_mem _id (suppliers self))
     then raise (InvalidIdException ("Supplier id does not exist: " ++ str_of_int _id))
     else
       for_each (dict_values (orders self)) (fun o =>
         match dict_get (Order.product_id o) (products self) with
         | Some p =>
             if Product.supplier_id p =? _id
             then raise (InvalidIdException
                    ("Cannot remove supplier with existing orders: " ++ str_of_int _id))
             else ret tt
         | None => ret tt
         end) ;;
       modify (set_suppliers (dict_del _id)) ;;
       ret None
   else if String.eqb ct "order" then
     match dict_get _id (orders self) with
     | None => raise (InvalidIdException ("Order id does not exist: " ++ str_of_int _id))
     | Some order =>
         modify (set_orders (dict_del _id)) ;;
         self <- get ;;
         match dict_get (Order.product_id order) (products self) with
         | Some p =>
             modify (set_products (dict_set (Order.product_id order)
               (Product.set_quantity (Product.quantity p + Order.quantity order) p)))
         | None => ret tt
         end ;;
         ret (Some (Order.quantity order))
     end
   else raise (InvalidIdException ("Invalid class_type: " ++ class_type)))%method.

(** The loop of [search_products]; [res] is the list built so far.  The
    price limit is a float or [None]; [p.price > max_price] is
    [max_price < p.price]. *)
Fixpoint search_loop (query : string) (max_price : option float)
    (ps : list Product.t) (res : list Product.t) : list Product.t :=
  match ps with
  | [] => res
  | p :: ps' =>
      if Product.quantity p =? 0 then search_loop query max_price ps' res
      else if negb (str_contains query (Product.name p))
      then search_loop query max_price ps' res
      else if match max_price with
              | Some mp => PrimFloat.ltb mp (Product.price p)
              | None => false
              end
      then search_loop query max_price ps' res
      else search_loop query max_price ps' (res ++ [p])%list
  end.

Definition search_products (query : string) (max_price : option float)
    (self : MatamazonSystem) : list Product.t :=
  sorted Product.lt (search_loop query max_price (dict_values (products self)) []).

(** [export_system_to_file]: the lines written. *)
Definition export_system_to_file (self : MatamazonSystem) : list string :=
  (map entity_repr (dict_values (customers self)) ++
   map entity_repr (dict_values (suppliers self)) ++
   map Product.repr (dict_values (products self)))%list.

(** The loop of [export_orders]; [grouped] is the dictionary built so far. *)
Fixpoint export_loop (self : MatamazonSystem) (os : list Order.t)
    (grouped : dict string (list string)) : dict string (list string) :=
  match os with
  | [] => grouped
  | o :: os' =>
      match dict_get (Order.product_id o) (products self) with
      | None => export_loop self os' grouped
      | Some p =>
          match dict_get (Product.supplier_id p) (suppliers self) with
          | None => export_loop self os' grouped
          | Some s =>
              let city := entity_city s in
              let grouped :=
                if negb (dict_mem city grouped) then dict_set city [] grouped
                else grouped in
              let items :=
                match dict_get city grouped with
                | Some l => l
                | None => []
                end in
              export_loop self os' (dict_set city (items ++ [Order.repr o])%list grouped)
          end
      end
  end.

Definition export_orders_grouped (self : MatamazonSystem) : dict string (list string) :=
  export_loop self (dict_values (orders self)) [].

(** [export_orders]: the text written to [out_file]. *)
Definition export_orders (self : MatamazonSystem) : string :=
  json_dumps (export_orders_grouped self).


(** ** The script's helpers *)

(** [flag in allowed] for the four flags of the script. *)
Definition allowed (flag : string) : bool :=
  String.eqb flag "-l" || String.eqb flag "-s" ||
  String.eqb flag "-o" || String.eqb flag "-os".

(** The loop of [_parse_script_args]: [rest] is [argv] from index [i] on,
    [args] the dictionary built so far; [None] is the early [return None]. *)
Fixpoint parse_args_loop (rest : list string) (args : dict string string) :
    option (dict string string) :=
  match rest with
  | [] => Some args
  | flag :: rest' =>
      if negb (allowed flag) then None
      else
        match rest' with
        | [] => None
        | val :: rest'' =>
            if allowed val then None
            else parse_args_loop rest'' (dict_set flag val args)
        end
  end.

Definition _parse_script_args (argv : list string) : option (dict string string) :=
  match parse_args_loop (skipn 1 argv) [] with
  | None => None
  | Some args => if negb (dict_mem "-l" args) then None else Some args
  end.

(** [tok.replace("_", " ")] *)
Fixpoint _decode_token (tok : string) : string :=
  match tok with
  | EmptyString => EmptyString
  | String c tok' =>
      String (if Ascii.eqb c "_" then " "%char else c) (_decode_token tok')
  end.

(* ================================================================== *)
(** * Specification vocabulary *)
(* ================================================================== *)

(** ** Calls that drive a ledger

    A call of the interface.  A [Product] object exists only if its
    constructor accepted its fields, so the upsert call carries the
    constructor's arguments, as the command dispatcher passes them. *)

Inductive command : Type :=
| CmdRegister (entity : Entity) (is_customer : bool)
| CmdUpsert (id : Z) (name : string) (price : number) (supplier_id quantity : Z)
| CmdOrder (customer_id product_id quantity : Z)
| CmdRemove (_id : Z) (class_type : string).

(** The ledger a call leaves behind, whatever its outcome. *)
Definition exec (c : command) (self : MatamazonSystem) : MatamazonSystem :=
  match c with
  | CmdRegister entity is_customer => snd (register_entity entity is_customer self)
  | CmdUpsert id name price supplier_id quantity =>
      match Product.init id name price supplier_id quantity with
      | Ok product => snd (add_or_update_product product self)
      | Raise _ => self
      end
  | CmdOrder customer_id product_id quantity =>
      snd (place_order customer_id product_id quantity self)
  | CmdRemove _id class_type => snd (remove_object _id class_type self)
  end.

Definition run (cs : list command) (self : MatamazonSystem) : MatamazonSystem :=
  fold_left (fun s c => exec c s) cs self.

Inductive reachable : MatamazonSystem -> Prop :=
| reachable_init : reachable init
| reachable_exec c s : reachable s -> reachable (exec c s).

(** The order ids present after a call that were absent before it. *)
Definition created (before after : MatamazonSystem) : list Z :=
  filter (fun k => negb (dict_mem k (orders before))) (dict_keys (orders after)).

(** The order ids a sequence of calls creates, in the order of creation. *)
Fixpoint created_by (cs : list command) (self : MatamazonSystem) : list Z :=
  match cs with
  | [] => []
  | c :: cs' => (created self (exec c self) ++ created_by cs' (exec c self))%list
  end.

(** ** Well-formed ledgers *)

(** What the constructors check. *)
Definition wf_product (p : Product.t) : Prop :=
  0 <= Product.id p /\ 0 <= Product.supplier_id p /\ 0 <= Product.quantity p /\
  PrimFloat.ltb (Product.price p) 0%float = false.

Definition wf_order (o : Order.t) : Prop :=
  0 <= Order.id o /\ 0 <= Order.customer_id o /\ 0 <= Order.product_id o /\
  0 <= Order.quantity o /\ PrimFloat.ltb (Order.total_price o) 0%float = false.

(** No key twice, and every object filed under its own, non-negative id. *)
Definition keyed {V} (idf : V -> Z) (d : dict Z V) : Prop :=
  NoDup (dict_keys d) /\ forall k v, In (k, v) d -> idf v = k /\ 0 <= k.

Record wf (self : MatamazonSystem) : Prop := mk_wf {
  wf_customers : keyed entity_id (customers self);
  wf_suppliers : keyed entity_id (suppliers self);
  wf_shared_ids : forall k,
    ~ (dict_mem k (customers self) = true /\ dict_mem k (suppliers self) = true);
  wf_products : keyed Product.id (products self);
  wf_products_valid : Forall wf_product (dict_values (products self));
  wf_orders : keyed Order.id (orders self);
  wf_orders_valid : Forall wf_order (dict_values (orders self));
  wf_order_ids : Forall (fun k => 1 <= k < next_order_id self) (dict_keys (orders self));
  wf_next_order_id : 1 <= next_order_id self
}.

(** ** Search *)

(** A float that is not [nan]. *)
Definition is_number (x : float) : Prop := PrimFloat.eqb x x = true.

(** What the contract of [search_products] asks of a product. *)
Definition matches (query : string) (max_price : option float) (p : Product.t) : bool :=
  (0 <? Product.quantity p) && str_contains query (Product.name p) &&
  match max_price with
  | Some mp => PrimFloat.leb (Product.price p) mp
  | None => true
  end.

(** Ascending by price, ties by ascending id. *)
Definition price_then_id (p q : Product.t) : Prop :=
  PrimFloat.ltb (Product.price p) (Product.price q) = true \/
  (PrimFloat.eqb (Product.price p) (Product.price q) = true /\ Product.id p < Product.id q).

(** ** Export *)

(** The city an order is exported under, if its product and that product's
    supplier are on file. *)
Definition order_city (self : MatamazonSystem) (o : Order.t) : option string :=
  match dict_get (Order.product_id o) (products self) with
  | None => None
  | Some p =>
      match dict_get (Product.supplier_id p) (suppliers self) with
      | None => None
      | Some s => Some (entity_city s)
      end
  end.

(** The orders that are exported, each with its city, in ledger order. *)
Fixpoint exported (self : MatamazonSystem) (os : list Order.t) : list (string * Order.t) :=
  match os with
  | [] => []
  | o :: os' =>
      match order_city self o with
      | Some c => (c, o) :: exported self os'
      | None => exported self os'
      end
  end.

(** The cities of a list, each once, at its first occurrence. *)
Fixpoint first_seen (cs : list string) : list string :=
  match cs with
  | [] => []
  | c :: cs' => c :: filter (fun c' => negb (String.eqb c' c)) (first_seen cs')
  end.

(** The descriptions of the exported orders of one city, in ledger order. *)
Definition orders_of_city (city : string) (l : list (string * Order.t)) : list string :=
  map (fun co => Order.repr (snd co)) (filter (fun co => String.eqb (fst co) city) l).


(** ** Floats: signs and positions *)

(** The sign bit is clear, or the value is a zero or [nan]: exactly what
    [x < 0] being false means. *)
Definition SFnonneg (x : spec_float) : Prop :=
  match x with
  | S754_infinity s | S754_finite s _ _ => s = false
  | _ => True
  end.

(** A position on the line for every float that is a number: the class
    (infinities, negative, zero, positive), then exponent and mantissa. *)
Definition rank (x : spec_float) : Z * Z * Z :=
  match x with
  | S754_zero _ => (0, 0, 0)
  | S754_infinity s => (if s then -2 else 2, 0, 0)
  | S754_nan => (0, 0, 0)
  | S754_finite s m e => if s then (-1, - e, Z.neg m) else (1, e, Z.pos m)
  end.

(** Comparison of positions, component by component. *)
Definition lex3 (a b : Z * Z * Z) : comparison :=
  let '(a1, a2, a3) := a in
  let '(b1, b2, b3) := b in
  match a1 ?= b1 with
  | Eq => match a2 ?= b2 with
          | Eq => a3 ?= b3
          | c => c
          end
  | c => c
  end.

(** The position of a primitive float. *)
Definition fkey (x : float) : Z * Z * Z := rank (Prim2SF x).

(** ** Sorting *)

(** What the binary search maintains: the pivot goes after everything
    before [l] and before everything from [r] on. *)
Definition brackets {A} (lt : A -> A -> bool) (pivot : A) (a : list A)
    (l r : nat) : Prop :=
  Forall (fun y => lt pivot y = false) (firstn l a) /\
  Forall (fun y => lt pivot y = true) (skipn r a).

(** ** Ledgers after a step *)

(** The ledger once the stock is taken and the order id consumed. *)
Definition stock_taken (product_id quantity : Z) (product : Product.t)
    (self : MatamazonSystem) : MatamazonSystem :=
  set_next_order_id (next_order_id self + 1)
    (set_products
       (dict_set product_id
          (Product.set_quantity (Product.quantity product - quantity) product))
       self).

(** An order of the ledger is for a product of supplier [_id]. *)
Definition supplies (self : MatamazonSystem) (_id : Z) (o : Order.t) : bool :=
  match dict_get (Order.product_id o) (products self) with
  | Some p => Product.supplier_id p =? _id
  | None => false
  end.

(** The ledger once an order is removed and its stock returned. *)
Definition order_removed (_id : Z) (order : Order.t) (self : MatamazonSystem) :
    MatamazonSystem :=
  match dict_get (Order.product_id order) (products self) with
  | Some p =>
      set_products
        (dict_set (Order.product_id order)
           (Product.set_quantity (Product.quantity p + Order.quantity order) p))
        (set_orders (dict_del _id) self)
  | None => set_orders (dict_del _id) self
  end.

(** The ledger after a series of upserts, whatever their outcomes. *)
Definition upserts (ps : list Product.t) (self : MatamazonSystem) : MatamazonSystem :=
  fold_left (fun s p => snd (add_or_update_product p s)) ps self.

(** ** Search and export, as the loops compute them *)

(** The test the loop of [search_products] applies. *)
Definition keeps (query : string) (max_price : option float) (p : Product.t) : bool :=
  negb (Product.quantity p =? 0) && str_contains query (Product.name p) &&
  negb match max_price with
       | Some mp => PrimFloat.ltb mp (Product.price p)
       | None => false
       end.

(** The catalog's prices are numbers. *)
Definition priced (self : MatamazonSystem) : Prop :=
  Forall (fun p => is_number (Product.price p)) (dict_values (products self)).

(** One turn of the loop of [export_orders], for an order that is
    exported under [city]. *)
Definition export_step (grouped : dict string (list string))
    (co : string * Order.t) : dict string (list string) :=
  let city := fst co in
  let grouped :=
    if negb (dict_mem city grouped) then dict_set city [] grouped else grouped in
  let items :=
    match dict_get city grouped with
    | Some l => l
    | None => []
    end in
  dict_set city (items ++ [Order.repr (snd co)])%list grouped.

(** What the contract asks of the export: the cities in first-seen order,
    each with the descriptions of its orders in ledger order. *)
Definition grouped_by_city (l : list (string * Order.t)) : dict string (list string) :=
  map (fun city => (city, orders_of_city city l)) (first_seen (map fst l)).

(** [c] is among the cities [cs]. *)
Definition seenb (c : string) (cs : list string) : bool := existsb (String.eqb c) cs.

(** A dictionary that lists [f] over the keys [ks]. *)
Definition tabulate {V} (f : string -> V) (ks : list string) : dict string V :=
  map (fun k => (k, f k)) ks.


(** ** Ledgers of the scenarios *)

(** Supplier 1 of the specification's scenarios. *)
Definition acme : Entity := ESupplier (Supplier.mk 1 "Acme" "NYC" "5th Ave").

(** The ledger of the scenarios: supplier 1 registered and product 10
    added, three widgets at 2.5. *)
Definition widget_ledger : MatamazonSystem :=
  run [CmdRegister acme false; CmdUpsert 10 "Widget" (NumFloat 2.5) 1 3] init.


(** The scenario ledger after [place_order(7, 10, 2)]: one widget left. *)
Definition sold_ledger : MatamazonSystem :=
  run [CmdRegister acme false; CmdUpsert 10 "Widget" (NumFloat 2.5) 1 3;
       CmdOrder 7 10 2] init.

(** Supplier 1 registered, product 10 added, supplier 1 removed again:
    nothing forbids the removal while no order refers to the product. *)
Definition orphan_ledger : MatamazonSystem :=
  run [CmdRegister acme false; CmdUpsert 10 "Widget" (NumFloat 2.5) 1 3;
       CmdRemove 1 "supplier"] init.

(** A catalog of three widgets of one supplier: ids 1, 2, 3 at prices 2.0,
    1.5 and 1.0. *)
Definition three_widgets : MatamazonSystem :=
  run [CmdRegister acme false;
       CmdUpsert 1 "Widget A" (NumFloat 2) 1 5;
       CmdUpsert 2 "Widget B" (NumFloat 1.5) 1 5;
       CmdUpsert 3 "Widget C" (NumFloat 1) 1 5] init.

(** The same catalog with [nan] as the price of product 2 and 1.0 as that
    of product 3. *)
Definition nan_widgets : MatamazonSystem :=
  run [CmdRegister acme false;
       CmdUpsert 1 "Widget A" (NumFloat 2) 1 5;
       CmdUpsert 2 "Widget B" (NumFloat nan) 1 5;
       CmdUpsert 3 "Widget C" (NumFloat 1) 1 5] init.

(** That catalog, with the three products added in the opposite order. *)
Definition nan_widgets_reversed : MatamazonSystem :=
  run [CmdRegister acme false;
       CmdUpsert 3 "Widget C" (NumFloat 1) 1 5;
       CmdUpsert 2 "Widget B" (NumFloat nan) 1 5;
       CmdUpsert 1 "Widget A" (NumFloat 2) 1 5] init.


(** ** Arguments of the script *)

(** The words of a command line made of flag and value pairs. *)
Fixpoint flat_pairs (ps : list (string * string)) : list string :=
  match ps with
  | [] => []
  | (flag, val) :: ps' => flag :: val :: flat_pairs ps'
  end.

(** A pair the script accepts: one of its flags, then a word that is not a
    flag. *)
Definition flag_pair (p : string * string) : Prop :=
  allowed (fst p) = true /\ allowed (snd p) = false.

(** The value following the last occurrence of [flag]. *)
Fixpoint last_value (flag : string) (ps : list (string * string)) : option string :=
  match ps with
  | [] => None
  | (f, v) :: ps' =>
      match last_value flag ps' with
      | Some v' => Some v'
      | None => if String.eqb flag f then Some v else None
      end
  end.

(** ** Stock accounting *)

(** The units of product [pid] that the orders of the ledger hold. *)
Definition allocated (self : MatamazonSystem) (pid : Z) : Z :=
  fold_right
    (fun o acc => if Order.product_id o =? pid then Order.quantity o + acc else acc)
    0 (dict_values (orders self)).

(** Every order of the ledger is for a product of the catalog. *)
Definition order_products_exist (self : MatamazonSystem) : Prop :=
  Forall (fun o => dict_mem (Order.product_id o) (products self) = true)
         (dict_values (orders self)).

(** The four class tokens of [remove_object]. *)
Definition class_tokens : list string := ["customer"; "product"; "supplier"; "order"].

(* ================================================================== *)
(** * Facts about the built-ins *)
(* ================================================================== *)

(** ** Dictionaries *)

Section DictFacts.
Context {K V : Type} `{Key K}.
Implicit Types (k : K) (v : V) (d : dict K V).

Lemma key_eqb_refl k : key_eqb k k = true.
Proof. now apply key_eqb_eq. Qed.

Lemma key_eqb_neq k k' : k <> k' -> key_eqb k k' = false.
Proof.
  intros Hne. destruct (key_eqb k k') eqn:E; [|reflexivity].
  apply key_eqb_eq in E. contradiction.
Qed.

Lemma key_eqb_sym k k' : key_eqb k k' = key_eqb k' k.
Proof.
  destruct (key_eqb k k') eqn:E.
  - apply key_eqb_eq in E. subst. symmetry. apply key_eqb_refl.
  - destruct (key_eqb k' k) eqn:E'; [|reflexivity].
    apply key_eqb_eq in E'. subst. now rewrite key_eqb_refl in E.
Qed.

Ltac by_key k k' :=
  let E := fresh "E" in
  destruct (key_eqb k k') eqn:E;
  [apply key_eqb_eq in E; try subst | ].

Lemma dict_get_In k v d : dict_get k d = Some v -> In (k, v) d.
Proof.
  induction d as [|[k' v'] d IH]; simpl; [discriminate|].
  by_key k k'.
  - intros [= ->]. now left.
  - intros Hg. right. auto.
Qed.

Lemma dict_mem_keys k d : dict_mem k d = true <-> In k (dict_keys d).
Proof.
  unfold dict_mem. induction d as [|[k' v'] d IH]; simpl.
  - split; [discriminate | tauto].
  - by_key k k'.
    + split; auto.
    + rewrite IH. split; [tauto|]. intros [->|]; [|assumption].
      now rewrite key_eqb_refl in E.
Qed.

Lemma dict_mem_false k d : dict_mem k d = false <-> ~ In k (dict_keys d).
Proof.
  rewrite <- dict_mem_keys. destruct (dict_mem k d); split; congruence.
Qed.


Lemma dict_mem_get k d : dict_mem k d = true <-> exists v, dict_get k d = Some v.
Proof.
  unfold dict_mem. destruct (dict_get k d) as [v|].
  - split; eauto.
  - split; [discriminate | intros [v Hv]; discriminate].
Qed.

Lemma In_dict_get k v d : NoDup (dict_keys d) -> In (k, v) d -> dict_get k d = Some v.
Proof.
  induction d as [|[k' v'] d IH]; simpl; [tauto|].
  intros Hnd [Heq | Hin].
  - injection Heq as -> ->. now rewrite key_eqb_refl.
  - inversion Hnd as [|? ? Hnotin Hnd']; subst.
    by_key k k'.
    + exfalso. apply Hnotin. change k' with (fst (k', v)). now apply in_map.
    + auto.
Qed.

Lemma dict_get_set_same k v d : dict_get k (dict_set k v d) = Some v.
Proof.
  induction d as [|[k' v'] d IH]; simpl.
  - now rewrite key_eqb_refl.
  - destruct (key_eqb k k') eqn:E; simpl; rewrite E; auto.
Qed.

Lemma dict_get_set_other k k' v d :
  k <> k' -> dict_get k' (dict_set k v d) = dict_get k' d.
Proof.
  intros Hne. induction d as [|[k0 v0] d IH]; simpl.
  - rewrite key_eqb_neq; auto.
  - by_key k k0; simpl.
    + rewrite (key_eqb_neq k' k0) by congruence. reflexivity.
    + now rewrite IH.
Qed.

Lemma dict_mem_set k k' v d :
  dict_mem k' (dict_set k v d) = key_eqb k' k || dict_mem k' d.
Proof.
  unfold dict_mem. by_key k' k.
  - now rewrite dict_get_set_same.
  - rewrite dict_get_set_other; [reflexivity|].
    intros ->. now rewrite key_eqb_refl in E.
Qed.

Lemma dict_keys_set k v d :
  dict_keys (dict_set k v d) =
  if dict_mem k d then dict_keys d else (dict_keys d ++ [k])%list.
Proof.
  unfold dict_mem. induction d as [|[k' v'] d IH]; simpl; [reflexivity|].
  destruct (key_eqb k k') eqn:E; simpl; [reflexivity|].
  rewrite IH. now destruct (dict_get k d).
Qed.

Lemma dict_set_NoDup k v d : NoDup (dict_keys d) -> NoDup (dict_keys (dict_set k v d)).
Proof.
  intros Hnd. rewrite dict_keys_set.
  destruct (dict_mem k d) eqn:E; [assumption|].
  apply dict_mem_false in E.
  apply NoDup_app; [assumption | repeat constructor; simpl; tauto |].
  intros x Hx [<-|[]]. contradiction.
Qed.

Lemma In_dict_set k v k' v' d :
  In (k', v') (dict_set k v d) -> (k' = k /\ v' = v) \/ In (k', v') d.
Proof.
  induction d as [|[k0 v0] d IH]; simpl.
  - intros [[= <- <-]|[]]. now left.
  - by_key k k0; simpl.
    + intros [[= <- <-]|Hin]; [now left | right; now right].
    + intros [Heq|Hin]; [right; now left|].
      destruct (IH Hin); [now left | right; now right].
Qed.

Lemma dict_values_set_Forall (P : V -> Prop) k v d :
  P v -> Forall P (dict_values d) -> Forall P (dict_values (dict_set k v d)).
Proof.
  intros Hv. unfold dict_values. induction d as [|[k' v'] d IH]; simpl; intros Hd.
  - repeat constructor. assumption.
  - inversion Hd; subst. destruct (key_eqb k k'); simpl; constructor; auto.
Qed.

Lemma In_dict_del k x d : In x (dict_del k d) -> In x d.
Proof.
  induction d as [|[k' v'] d IH]; simpl; [tauto|].
  destruct (key_eqb k k'); simpl; [now right|].
  intros [->|Hin]; [now left | right; auto].
Qed.

Lemma In_keys_del k k' d : In k' (dict_keys (dict_del k d)) -> In k' (dict_keys d).
Proof.
  unfold dict_keys. rewrite !in_map_iff. intros [x [Hx Hin]].
  exists x. split; [assumption | eapply In_dict_del; eassumption].
Qed.

Lemma dict_del_NoDup k d : NoDup (dict_keys d) -> NoDup (dict_keys (dict_del k d)).
Proof.
  induction d as [|[k' v'] d IH]; simpl; intros Hnd; [assumption|].
  inversion Hnd as [|? ? Hnotin Hnd']; subst.
  destruct (key_eqb k k'); simpl; [assumption|].
  constructor; [|auto]. intros Hin. apply Hnotin. eapply In_keys_del; eassumption.
Qed.


Lemma dict_get_del_other k k' d : k <> k' -> dict_get k' (dict_del k d) = dict_get k' d.
Proof.
  intros Hne. induction d as [|[k0 v0] d IH]; simpl; [reflexivity|].
  by_key k k0; simpl.
  - rewrite key_eqb_neq; auto.
  - now rewrite IH.
Qed.

Lemma dict_values_del_Forall (P : V -> Prop) k d :
  Forall P (dict_values d) -> Forall P (dict_values (dict_del k d)).
Proof.
  unfold dict_values. induction d as [|[k' v'] d IH]; simpl; intros Hd; [assumption|].
  inversion Hd; subst. destruct (key_eqb k k'); simpl; auto.
Qed.

Lemma dict_keys_del_Forall (P : K -> Prop) k d :
  Forall P (dict_keys d) -> Forall P (dict_keys (dict_del k d)).
Proof.
  rewrite !Forall_forall. intros Hd x Hx. apply Hd. eapply In_keys_del; eassumption.
Qed.

Lemma dict_get_values k v d : dict_get k d = Some v -> In v (dict_values d).
Proof.
  intros Hg. apply dict_get_In in Hg. unfold dict_values.
  change v with (snd (k, v)). now apply in_map.
Qed.

End DictFacts.

(** ** Floats: signs *)

Lemma Prim2SF_zero : Prim2SF 0%float = S754_zero false.
Proof. reflexivity. Qed.

Lemma ltb_zero_nonneg (f : float) :
  PrimFloat.ltb f 0%float = false <-> SFnonneg (Prim2SF f).
Proof.
  rewrite FloatAxioms.ltb_spec, Prim2SF_zero. unfold SFltb, SFcompare, SFnonneg.
  destruct (Prim2SF f) as [s | s | | s m e]; try destruct s; simpl; intuition congruence.
Qed.

Lemma binary_round_aux_nonneg m e l :
  SFnonneg (binary_round_aux prec emax false m e l).
Proof.
  unfold binary_round_aux.
  destruct (shr_fexp prec emax m e l) as [mrs' e'].
  destruct (shr_fexp prec emax _ e' loc_Exact) as [mrs'' e''].
  destruct (shr_m mrs''); simpl; auto.
  match goal with |- context [if ?c then _ else _] => destruct c end; simpl; auto.
Qed.

Lemma binary_round_nonneg m e : SFnonneg (binary_round prec emax false m e).
Proof.
  unfold binary_round.
  destruct (shl_align m e _) as [mz ez]. apply binary_round_aux_nonneg.
Qed.

Lemma binary_normalize_nonneg z e :
  0 <= z -> SFnonneg (binary_normalize prec emax z e false).
Proof.
  intros Hz. destruct z; simpl; auto.
  - apply binary_round_nonneg.
  - lia.
Qed.


Lemma SF2Prim_nonneg x : SFnonneg x -> SFnonneg (Prim2SF (SF2Prim x)).
Proof.
  destruct x as [s | s | | s m e]; simpl; intros Hx.
  - destruct s; vm_compute; auto.
  - subst. vm_compute. auto.
  - vm_compute. auto.
  - subst. unfold SF2Prim, Z.ldexp.
    rewrite FloatAxioms.ldshiftexp_spec, FloatAxioms.of_uint63_spec.
    set (n := Uint63Axioms.to_Z _).
    assert (Hn : 0 <= n) by (subst n; apply Uint63.to_Z_bounded).
    pose proof (binary_normalize_nonneg n 0 Hn) as Hb.
    destruct (binary_normalize prec emax n 0 false) as [s' | s' | | s' m' e'];
      simpl in *; auto.
    subst. apply binary_round_nonneg.
Qed.




(** The float of a non-negative int is not negative. *)
Lemma int_to_float_not_negative z y :
  0 <= z -> int_to_float z = Ok y -> PrimFloat.ltb y 0%float = false.
Proof.
  unfold int_to_float. intros Hz.
  destruct (float_overflow_bound <=? Z.abs z); [discriminate|].
  intros [= <-]. apply ltb_zero_nonneg, SF2Prim_nonneg.
  now apply binary_normalize_nonneg.
Qed.


(** ** Floats: order *)

Lemma SFcompare_rank x y :
  x <> S754_nan -> y <> S754_nan -> SFcompare x y = Some (lex3 (rank x) (rank y)).
Proof.
  intros Hx Hy.
  destruct x as [sx | sx | | sx mx ex], y as [sy | sy | | sy my ey];
    try congruence; try destruct sx; try destruct sy; simpl; try reflexivity.
  rewrite Z.compare_opp, (Z.compare_antisym ex ey).
  destruct (ex ?= ey); reflexivity.
Qed.

Lemma lex3_lt a1 a2 a3 b1 b2 b3 :
  lex3 (a1, a2, a3) (b1, b2, b3) = Lt <->
  a1 < b1 \/ (a1 = b1 /\ (a2 < b2 \/ (a2 = b2 /\ a3 < b3))).
Proof.
  simpl.
  destruct (Z.compare_spec a1 b1), (Z.compare_spec a2 b2), (Z.compare_spec a3 b3);
    split; intros; try lia; try congruence.
Qed.

Lemma lex3_eq a1 a2 a3 b1 b2 b3 :
  lex3 (a1, a2, a3) (b1, b2, b3) = Eq <-> a1 = b1 /\ a2 = b2 /\ a3 = b3.
Proof.
  simpl.
  destruct (Z.compare_spec a1 b1), (Z.compare_spec a2 b2), (Z.compare_spec a3 b3);
    split; intros; try lia; try congruence.
Qed.

Lemma lex3_refl a : lex3 a a = Eq.
Proof. destruct a as [[a1 a2] a3]. apply lex3_eq. auto. Qed.

Lemma is_number_SF x : is_number x <-> Prim2SF x <> S754_nan.
Proof.
  unfold is_number. rewrite FloatAxioms.eqb_spec. unfold SFeqb. split.
  - intros Hx Hn. rewrite Hn in Hx. discriminate.
  - intros Hn. rewrite SFcompare_rank by assumption. now rewrite lex3_refl.
Qed.

Lemma ltb_fkey x y :
  is_number x -> is_number y ->
  PrimFloat.ltb x y = true <-> lex3 (fkey x) (fkey y) = Lt.
Proof.
  intros Hx%is_number_SF Hy%is_number_SF.
  rewrite FloatAxioms.ltb_spec. unfold SFltb, fkey.
  rewrite SFcompare_rank by assumption.
  destruct (lex3 _ _); split; congruence.
Qed.

Lemma eqb_fkey x y :
  is_number x -> is_number y ->
  PrimFloat.eqb x y = true <-> lex3 (fkey x) (fkey y) = Eq.
Proof.
  intros Hx%is_number_SF Hy%is_number_SF.
  rewrite FloatAxioms.eqb_spec. unfold SFeqb, fkey.
  rewrite SFcompare_rank by assumption.
  destruct (lex3 _ _); split; congruence.
Qed.

Lemma leb_fkey x y :
  is_number x -> is_number y ->
  PrimFloat.leb x y = true <-> lex3 (fkey x) (fkey y) <> Gt.
Proof.
  intros Hx%is_number_SF Hy%is_number_SF.
  rewrite FloatAxioms.leb_spec. unfold SFleb, fkey.
  rewrite SFcompare_rank by assumption.
  destruct (lex3 _ _); split; congruence.
Qed.

Lemma lex3_gt a b : lex3 a b = Gt <-> lex3 b a = Lt.
Proof.
  destruct a as [[a1 a2] a3], b as [[b1 b2] b3]. rewrite lex3_lt. simpl.
  destruct (Z.compare_spec a1 b1), (Z.compare_spec a2 b2), (Z.compare_spec a3 b3);
    split; intros; try lia; try congruence.
Qed.

(** Between numbers, [x <= y] is the negation of [y < x]. *)
Lemma leb_not_ltb x y :
  is_number x -> is_number y -> PrimFloat.leb x y = negb (PrimFloat.ltb y x).
Proof.
  intros Hx Hy.
  destruct (PrimFloat.leb x y) eqn:El, (PrimFloat.ltb y x) eqn:Eg; try reflexivity.
  - apply leb_fkey in El; try assumption. apply ltb_fkey in Eg; try assumption.
    apply lex3_gt in Eg. contradiction.
  - exfalso. assert (Hl : lex3 (fkey x) (fkey y) <> Gt).
    { intros Hgt%lex3_gt. apply ltb_fkey in Hgt; try assumption. congruence. }
    apply leb_fkey in Hl; try assumption. congruence.
Qed.

(** No two floats are both equal and in strict order. *)
Lemma eqb_ltb_false x y : PrimFloat.eqb x y = true -> PrimFloat.ltb x y = false.
Proof.
  rewrite FloatAxioms.eqb_spec, FloatAxioms.ltb_spec. unfold SFeqb, SFltb.
  destruct (SFcompare _ _) as [[]|]; congruence.
Qed.

Lemma eqb_is_number x y : PrimFloat.eqb x y = true -> is_number x /\ is_number y.
Proof.
  rewrite !is_number_SF, FloatAxioms.eqb_spec. unfold SFeqb.
  destruct (Prim2SF x), (Prim2SF y); simpl; try discriminate; split; congruence.
Qed.

Lemma ltb_is_number x y : PrimFloat.ltb x y = true -> is_number x /\ is_number y.
Proof.
  rewrite !is_number_SF, FloatAxioms.ltb_spec. unfold SFltb.
  destruct (Prim2SF x), (Prim2SF y); simpl; try discriminate; split; congruence.
Qed.

(** ** The order of products *)

(** [__lt__] says exactly: cheaper, or as expensive with a smaller id. *)
Lemma Product_lt_price_then_id p q :
  is_number (Product.price p) -> is_number (Product.price q) ->
  Product.lt p q = true <-> price_then_id p q.
Proof.
  intros Hp Hq. unfold Product.lt, price_then_id.
  destruct (PrimFloat.eqb (Product.price p) (Product.price q)) eqn:E; simpl.
  - rewrite (eqb_ltb_false _ _ E), Z.ltb_lt. intuition congruence.
  - intuition congruence.
Qed.

Lemma not_true_false (x : bool) : x = false <-> ~ x = true.
Proof. destruct x; split; congruence. Qed.

(** Turns statements about [__lt__] on products whose prices are numbers
    into integer comparisons of their keys. *)
Ltac product_keys :=
  rewrite ?not_true_false;
  rewrite ?Product_lt_price_then_id by assumption;
  unfold price_then_id;
  rewrite ?ltb_fkey, ?eqb_fkey by assumption;
  repeat match goal with
         | |- context [fkey (Product.price ?p)] =>
             let k1 := fresh "k" in
             let k2 := fresh "k" in
             let k3 := fresh "k" in
             destruct (fkey (Product.price p)) as [[k1 k2] k3]
         end;
  rewrite ?lex3_lt, ?lex3_eq.

Lemma Product_lt_asym a b :
  is_number (Product.price a) -> is_number (Product.price b) ->
  Product.lt a b = true -> Product.lt b a = false.
Proof. intros Ha Hb. product_keys. lia. Qed.

Lemma Product_lt_irrefl a :
  is_number (Product.price a) -> Product.lt a a = false.
Proof. intros Ha. product_keys. lia. Qed.

Lemma Product_lt_ntrans a b c :
  is_number (Product.price a) -> is_number (Product.price b) ->
  is_number (Product.price c) ->
  Product.lt b a = false -> Product.lt c b = false -> Product.lt c a = false.
Proof. intros Ha Hb Hc. product_keys. lia. Qed.

Lemma Product_lt_total a b :
  is_number (Product.price a) -> is_number (Product.price b) ->
  Product.id a <> Product.id b -> Product.lt b a = false -> Product.lt a b = true.
Proof. intros Ha Hb. product_keys. lia. Qed.

(** ** Sorting *)

Section SortPerm.
Context {A : Type} (lt : A -> A -> bool).

Lemma insert_at_perm pivot (a : list A) i :
  Permutation (insert_at pivot a i) (pivot :: a).
Proof.
  unfold insert_at. symmetry.
  rewrite <- (firstn_skipn i a) at 1. apply Permutation_middle.
Qed.

Lemma binarysort_perm (rest a : list A) :
  Permutation (binarysort lt a rest) (a ++ rest).
Proof.
  revert a. induction rest as [|pivot rest IH]; intros a; simpl.
  - now rewrite app_nil_r.
  - rewrite IH, insert_at_perm. simpl. apply Permutation_middle.
Qed.

(** The sort rearranges; it neither drops nor repeats an element. *)
Lemma sorted_perm (l : list A) : Permutation (sorted lt l) l.
Proof.
  unfold sorted. destruct (count_run lt l) as [n descending].
  rewrite binarysort_perm.
  transitivity (firstn n l ++ skipn n l)%list; [|now rewrite firstn_skipn].
  apply Permutation_app_tail.
  destruct descending; [symmetry; apply Permutation_rev | reflexivity].
Qed.

Lemma run_length_pos descending x (l : list A) :
  exists k, run_length lt descending x l = S k.
Proof. destruct l as [|y l]; simpl; [eauto|]. destruct (Bool.eqb _ _); eauto. Qed.

(** Neighbours in the initial run compare the way the run goes. *)
Lemma run_length_chain descending (l : list A) x :
  Sorted (fun x y => lt y x = descending)
         (firstn (run_length lt descending x l) (x :: l)).
Proof.
  revert x. induction l as [|y l IH]; intros x; simpl.
  - repeat constructor.
  - destruct (Bool.eqb (lt y x) descending) eqn:E; simpl.
    + specialize (IH y). destruct (run_length_pos descending y l) as [k Hk].
      rewrite Hk in *. simpl in *. constructor; [assumption|].
      constructor. now apply Bool.eqb_prop.
    + repeat constructor.
Qed.

End SortPerm.

Section StronglySortedFacts.
Context {A : Type} (R : A -> A -> Prop).

Lemma StronglySorted_app_inv (l1 l2 : list A) :
  StronglySorted R (l1 ++ l2) ->
  StronglySorted R l1 /\ StronglySorted R l2 /\
  (forall x y, In x l1 -> In y l2 -> R x y).
Proof.
  induction l1 as [|a l1 IH]; simpl; intros Hs.
  - repeat split; [constructor | assumption | tauto].
  - apply StronglySorted_inv in Hs. destruct Hs as [Hs Hall].
    destruct (IH Hs) as (H1 & H2 & H12).
    rewrite Forall_app in Hall. destruct Hall as [Ha1 Ha2].
    repeat split; [now constructor | assumption |].
    intros x y [<- | Hx] Hy; [| now apply H12].
    rewrite Forall_forall in Ha2. now apply Ha2.
Qed.

Lemma StronglySorted_app (l1 l2 : list A) :
  StronglySorted R l1 -> StronglySorted R l2 ->
  (forall x y, In x l1 -> In y l2 -> R x y) ->
  StronglySorted R (l1 ++ l2).
Proof.
  induction l1 as [|a l1 IH]; simpl; intros H1 H2 H12; [assumption|].
  apply StronglySorted_inv in H1. destruct H1 as [H1 Hall].
  constructor.
  - apply IH; auto.
  - rewrite Forall_app. split; [assumption|].
    rewrite Forall_forall. intros y Hy. apply H12; auto.
Qed.

End StronglySortedFacts.

Lemma StronglySorted_rev {A} (R : A -> A -> Prop) (l : list A) :
  StronglySorted R l -> StronglySorted (fun x y => R y x) (rev l).
Proof.
  induction 1 as [|a l Hs IH Hall]; simpl; [constructor|].
  apply StronglySorted_app; [assumption | repeat constructor |].
  intros x y Hx [<- | []]. rewrite Forall_forall in Hall.
  apply Hall. now apply in_rev.
Qed.

(** A chain of neighbours is sorted throughout, when [R] is transitive
    on the elements at hand. *)
Lemma chain_StronglySorted {A} (R : A -> A -> Prop) (D : A -> Prop) (l : list A) :
  (forall x y z, D x -> D y -> D z -> R x y -> R y z -> R x z) ->
  Forall D l -> Sorted R l -> StronglySorted R l.
Proof.
  intros Htrans. induction l as [|a l IH]; intros HD Hs; [constructor|].
  inversion HD as [|? ? Da Dl]; subst.
  apply Sorted_inv in Hs. destruct Hs as [Hs Hhd].
  specialize (IH Dl Hs). constructor; [assumption|].
  destruct l as [|b l]; [constructor|].
  apply HdRel_inv in Hhd.
  apply StronglySorted_inv in IH. destruct IH as [_ Hall].
  constructor; [assumption|].
  inversion Dl as [|? ? Db Dl']; subst.
  rewrite Forall_forall in *. intros z Hz.
  apply (Htrans a b z); auto.
Qed.

Section SortCorrect.
Context {A : Type} (lt : A -> A -> bool) (D : A -> Prop).
Hypothesis lt_asym : forall a b, D a -> D b -> lt a b = true -> lt b a = false.
Hypothesis lt_ntrans : forall a b c, D a -> D b -> D c ->
  lt b a = false -> lt c b = false -> lt c a = false.

(** [a] does not come after [b]. *)
Let le (a b : A) : Prop := lt b a = false.

Lemma nth_error_parts (a : list A) p x :
  nth_error a p = Some x ->
  firstn (S p) a = (firstn p a ++ [x])%list /\ skipn p a = x :: skipn (S p) a /\
  a = (firstn p a ++ x :: skipn (S p) a)%list.
Proof.
  revert p. induction a as [|y a IH]; intros p Hn.
  - destruct p; discriminate.
  - destruct p as [|p].
    + injection Hn as ->. repeat split.
    + destruct (IH p Hn) as (H1 & H2 & H3). repeat split.
      * change (firstn (S (S p)) (y :: a)) with (y :: firstn (S p) a).
        now rewrite H1.
      * change (skipn (S p) (y :: a)) with (skipn p a). now rewrite H2.
      * change (firstn (S p) (y :: a)) with (y :: firstn p a).
        change (skipn (S (S p)) (y :: a)) with (skipn (S p) a).
        rewrite <- app_comm_cons. now f_equal.
Qed.

Lemma bisect_brackets pivot (a : list A) :
  StronglySorted le a -> Forall D a -> D pivot ->
  forall fuel l r,
    (l < r <= List.length a)%nat -> (r - l <= fuel)%nat ->
    brackets lt pivot a l r ->
    brackets lt pivot a (bisect lt fuel pivot a l r) (bisect lt fuel pivot a l r).
Proof.
  intros Hs HD Hp. induction fuel as [|fuel IH]; intros l r Hlr Hfuel [Hl Hr]; [lia|].
  simpl.
  remember (Nat.div2 (r - l)) as d eqn:Hd.
  assert (Hdiv : (d < r - l)%nat) by (subst d; apply Nat.lt_div2; lia).
  clear Hd. remember (l + d)%nat as p eqn:Hpdef.
  assert (Hpr : (l <= p < r)%nat) by lia.
  clear Hpdef Hdiv d.
  destruct (nth_error a p) as [x|] eqn:Hx;
    [|apply nth_error_None in Hx; lia].
  destruct (nth_error_parts a p x Hx) as (Hfirst & Hskip & Hsplit).
  assert (Dx : D x) by (rewrite Forall_forall in HD; apply HD;
                         eapply nth_error_In; eassumption).
  rewrite Hsplit in Hs. apply StronglySorted_app_inv in Hs.
  destruct Hs as (_ & Hs2 & Hcross).
  apply StronglySorted_inv in Hs2. destruct Hs2 as [_ Hafter].
  assert (HDin : forall y, In y a -> D y) by (now apply Forall_forall).
  destruct (lt pivot x) eqn:Epx.
  - assert (Hnew : brackets lt pivot a l p).
    { split; [assumption|]. rewrite Hskip. constructor; [assumption|].
      rewrite Forall_forall in *. intros y Hy.
      destruct (lt pivot y) eqn:Epy; [reflexivity|]. exfalso.
      assert (Dy : D y).
      { apply HDin. rewrite Hsplit. apply in_or_app. right. now right. }
      specialize (Hafter y Hy). unfold le in Hafter.
      rewrite (lt_ntrans x y pivot Dx Dy Hp Hafter Epy) in Epx. discriminate. }
    destruct (l <? p)%nat eqn:Elp.
    + apply Nat.ltb_lt in Elp. apply IH; [lia | lia | assumption].
    + apply Nat.ltb_ge in Elp. replace p with l in Hnew by lia. exact Hnew.
  - assert (Hnew : brackets lt pivot a (S p) r).
    { split; [|assumption]. rewrite Hfirst. apply Forall_app. split.
      - rewrite Forall_forall in *. intros y Hy.
        assert (Dy : D y).
        { apply HDin. rewrite Hsplit. apply in_or_app. now left. }
        apply (lt_ntrans y x pivot Dy Dx Hp); [|assumption].
        apply Hcross; [assumption | now left].
      - repeat constructor. assumption. }
    destruct (S p <? r)%nat eqn:Epr.
    + apply Nat.ltb_lt in Epr. apply IH; [lia | lia | assumption].
    + apply Nat.ltb_ge in Epr. replace r with (S p) in Hnew by lia. exact Hnew.
Qed.

Lemma insert_sorted pivot (a : list A) :
  StronglySorted le a -> Forall D a -> D pivot ->
  StronglySorted le
    (insert_at pivot a (bisect lt (List.length a) pivot a 0 (List.length a))).
Proof.
  intros Hs HD Hp.
  assert (Hb : brackets lt pivot a (bisect lt (List.length a) pivot a 0 (List.length a))
                            (bisect lt (List.length a) pivot a 0 (List.length a))).
  { destruct a as [|y a']; [simpl; split; constructor|].
    apply bisect_brackets; try assumption.
    - simpl. lia.
    - lia.
    - split; [constructor|]. rewrite skipn_all. constructor. }
  set (i := bisect _ _ _ _ _ _) in *. destruct Hb as [Hl Hr].
  rewrite <- (firstn_skipn i a) in Hs, HD.
  apply StronglySorted_app_inv in Hs. destruct Hs as (H1 & H2 & Hcross).
  apply Forall_app in HD. destruct HD as [HD1 HD2].
  unfold insert_at. apply StronglySorted_app; [assumption | |].
  - constructor; [assumption|]. rewrite Forall_forall in *.
    intros y Hy. unfold le. apply lt_asym; auto.
  - intros x y Hx [<- | Hy]; [|auto].
    rewrite Forall_forall in Hl. unfold le. auto.
Qed.

Lemma binarysort_sorted (rest a : list A) :
  StronglySorted le a -> Forall D a -> Forall D rest ->
  StronglySorted le (binarysort lt a rest).
Proof.
  revert a. induction rest as [|pivot rest IH]; intros a Hs HD Hrest; simpl;
    [assumption|].
  inversion Hrest as [|? ? Hp Hrest']; subst.
  apply IH; [now apply insert_sorted | | assumption].
  eapply Permutation_Forall; [symmetry; apply insert_at_perm |].
  now constructor.
Qed.

Lemma initial_run_sorted (l : list A) :
  Forall D l ->
  let '(n, descending) := count_run lt l in
  StronglySorted le (if descending then rev (firstn n l) else firstn n l).
Proof.
  intros HD.
  destruct l as [|x [|y l]]; [constructor | repeat constructor |].
  change (count_run lt (x :: y :: l))
    with (run_length lt (lt y x) x (y :: l), lt y x).
  cbv beta iota.
  pose proof (run_length_chain lt (lt y x) (y :: l) x) as Hchain.
  remember (run_length lt (lt y x) x (y :: l)) as n eqn:Hn. clear Hn.
  remember (lt y x) as descending eqn:Hd. clear Hd.
  assert (Hin : forall z, In z (firstn n (x :: y :: l)) -> D z).
  { intros z Hz. rewrite Forall_forall in HD. apply HD.
    rewrite <- (firstn_skipn n (x :: y :: l)). apply in_or_app. now left. }
  revert Hchain Hin. generalize (firstn n (x :: y :: l)).
  intros run Hchain Hin.
  assert (HDrun : Forall D run) by (now apply Forall_forall).
  destruct descending.
  - apply (StronglySorted_rev (fun a b => lt a b = false)).
    apply (chain_StronglySorted _ D); [| assumption |].
    + intros a b c Da Db Dc Hab Hbc. apply (lt_ntrans c b a); assumption.
    + clear HDrun. induction Hchain as [|a t Hs IHt Hhd]; constructor.
      * apply IHt. intros z Hz. apply Hin. now right.
      * destruct Hhd as [|b t' Hba]; constructor.
        apply lt_asym; [apply Hin; right; now left | apply Hin; now left | assumption].
  - apply (chain_StronglySorted _ D); [| assumption | exact Hchain].
    intros a b c Da Db Dc Hab Hbc. apply (lt_ntrans a b c); assumption.
Qed.

(** On elements that [lt] orders consistently, the sort puts no element
    before one it is less than. *)
Lemma sorted_sorted (l : list A) :
  Forall D l -> StronglySorted le (sorted lt l).
Proof.
  intros HD. pose proof (initial_run_sorted l HD) as Hrun.
  unfold sorted. destruct (count_run lt l) as [n descending].
  rewrite <- (firstn_skipn n l) in HD. apply Forall_app in HD.
  destruct HD as [HD1 HD2].
  apply binarysort_sorted; [assumption | | assumption].
  destruct descending; [|assumption].
  eapply Permutation_Forall; [apply Permutation_rev | assumption].
Qed.

End SortCorrect.


(* ================================================================== *)
(** * Facts about the ledger *)
(* ================================================================== *)

(** ** Validation *)

Lemma validate_nonnegative_int_ok value field_name :
  0 <= value -> validate_nonnegative_int value field_name = Ok tt.
Proof.
  intros Hv. unfold validate_nonnegative_int, is_valid_nonnegative_int.
  destruct (0 <=? value) eqn:E; [reflexivity|]. apply Z.leb_gt in E. lia.
Qed.

Lemma validate_nonnegative_int_raises value field_name :
  value < 0 ->
  validate_nonnegative_int value field_name =
  Raise (InvalidIdException ("Invalid " ++ field_name ++ ": " ++ str_of_int value)).
Proof.
  intros Hv. unfold validate_nonnegative_int, is_valid_nonnegative_int.
  destruct (0 <=? value) eqn:E; [|reflexivity]. apply Z.leb_le in E. lia.
Qed.

Lemma validate_nonnegative_int_inv value field_name :
  validate_nonnegative_int value field_name = Ok tt -> 0 <= value.
Proof.
  unfold validate_nonnegative_int, is_valid_nonnegative_int.
  destruct (0 <=? value) eqn:E; [|discriminate]. intros _. now apply Z.leb_le.
Qed.

Lemma validate_nonnegative_int_cases value field_name :
  (0 <= value /\ validate_nonnegative_int value field_name = Ok tt) \/
  (value < 0 /\ exists msg,
     validate_nonnegative_int value field_name = Raise (InvalidIdException msg)).
Proof.
  destruct (Z.le_gt_cases 0 value) as [Hv|Hv].
  - left. split; [assumption | now apply validate_nonnegative_int_ok].
  - right. split; [assumption|]. eexists. now apply validate_nonnegative_int_raises.
Qed.


(** What a constructor accepted is well formed. *)
Lemma Product_init_wf id name price supplier_id quantity p :
  Product.init id name price supplier_id quantity = Ok p ->
  wf_product p /\ Product.id p = id /\ Product.name p = name /\
  Product.supplier_id p = supplier_id /\ Product.quantity p = quantity /\
  to_float price = Ok (Product.price p).
Proof.
  unfold Product.init.
  destruct (validate_nonnegative_int_cases id "id") as [[H1 ->]|[_ [m ->]]];
    [|discriminate].
  destruct (validate_nonnegative_int_cases supplier_id "supplier_id")
    as [[H2 ->]|[_ [m ->]]]; [|discriminate].
  destruct (validate_nonnegative_int_cases quantity "quantity")
    as [[H3 ->]|[_ [m ->]]]; [|discriminate].
  simpl. unfold validate_nonnegative_price.
  destruct (number_ltb_zero price) eqn:Eprice; [discriminate|]. simpl.
  destruct (to_float price) as [x|e] eqn:Ex; [|discriminate]. simpl.
  intros [= <-]. simpl. repeat split; try assumption.
  destruct price as [z|f]; simpl in *.
  - apply int_to_float_not_negative with z; [|assumption].
    now apply Z.ltb_ge.
  - now injection Ex as <-.
Qed.


Lemma Order_init_wf id customer_id product_id quantity total_price o :
  Order.init id customer_id product_id quantity total_price = Ok o ->
  wf_order o /\ Order.id o = id /\ Order.customer_id o = customer_id /\
  Order.product_id o = product_id /\ Order.quantity o = quantity /\
  to_float total_price = Ok (Order.total_price o).
Proof.
  unfold Order.init.
  destruct (validate_nonnegative_int_cases id "id") as [[H1 ->]|[_ [m ->]]];
    [|discriminate].
  destruct (validate_nonnegative_int_cases customer_id "customer_id")
    as [[H2 ->]|[_ [m ->]]]; [|discriminate].
  destruct (validate_nonnegative_int_cases product_id "product_id")
    as [[H3 ->]|[_ [m ->]]]; [|discriminate].
  destruct (validate_nonnegative_int_cases quantity "quantity")
    as [[H4 ->]|[_ [m ->]]]; [|discriminate].
  simpl. unfold validate_nonnegative_price.
  destruct (number_ltb_zero total_price) eqn:Eprice; [discriminate|]. simpl.
  destruct (to_float total_price) as [x|e] eqn:Ex; [|discriminate]. simpl.
  intros [= <-]. simpl. repeat split; try assumption.
  destruct total_price as [z|f]; simpl in *.
  - apply int_to_float_not_negative with z; [|assumption].
    now apply Z.ltb_ge.
  - now injection Ex as <-.
Qed.

(** ** Registries filed by id *)

Lemma keyed_set {V} (idf : V -> Z) k v (d : dict Z V) :
  keyed idf d -> idf v = k -> 0 <= k -> keyed idf (dict_set k v d).
Proof.
  intros [Hnd Hid] Hv Hk. split; [now apply dict_set_NoDup|].
  intros k' v' Hin. apply In_dict_set in Hin.
  destruct Hin as [[-> ->]|Hin]; auto.
Qed.

Lemma keyed_del {V} (idf : V -> Z) k (d : dict Z V) :
  keyed idf d -> keyed idf (dict_del k d).
Proof.
  intros [Hnd Hid]. split; [now apply dict_del_NoDup|].
  intros k' v' Hin. apply Hid. eapply In_dict_del; eassumption.
Qed.

Lemma keyed_get {V} (idf : V -> Z) k v (d : dict Z V) :
  keyed idf d -> dict_get k d = Some v -> idf v = k /\ 0 <= k.
Proof. intros [_ Hid] Hg. apply Hid. now apply dict_get_In. Qed.

Lemma keyed_nil {V} (idf : V -> Z) : keyed idf ([] : dict Z V).
Proof. split; [constructor | intros k v []]. Qed.

Lemma dict_get_Forall {V} (P : V -> Prop) (k : Z) v (d : dict Z V) :
  Forall P (dict_values d) -> dict_get k d = Some v -> P v.
Proof.
  intros Hall Hg. rewrite Forall_forall in Hall. apply Hall.
  eapply dict_get_values; eassumption.
Qed.

Lemma dict_mem_del_true (k k' : Z) {V} (d : dict Z V) :
  dict_mem k' (dict_del k d) = true -> dict_mem k' d = true.
Proof. rewrite !dict_mem_keys. apply In_keys_del. Qed.

(** ** Outcomes of [place_order] *)

Ltac unfold_method :=
  unfold bind, lift, ret, raise, get, modify; simpl.

Lemma place_order_invalid customer_id product_id quantity self :
  customer_id < 0 \/ product_id < 0 \/ quantity < 0 ->
  exists msg,
    place_order customer_id product_id quantity self =
    (Raise (InvalidIdException msg), self).
Proof.
  intros Hneg. unfold place_order. unfold_method.
  destruct (validate_nonnegative_int_cases customer_id "customer_id")
    as [[H1 ->]|[_ [m ->]]]; [|eauto].
  destruct (validate_nonnegative_int_cases product_id "product_id")
    as [[H2 ->]|[_ [m ->]]]; [|eauto].
  destruct (validate_nonnegative_int_cases quantity "quantity")
    as [[H3 ->]|[_ [m ->]]]; [|eauto].
  lia.
Qed.

Lemma place_order_valid customer_id product_id quantity self :
  0 <= customer_id -> 0 <= product_id -> 0 <= quantity ->
  place_order customer_id product_id quantity self =
  match dict_get product_id (products self) with
  | None => (Ok msg_no_product, self)
  | Some product =>
      if quantity >? Product.quantity product then (Ok msg_no_stock, self)
      else
        match float_mul_int (Product.price product) quantity with
        | Raise e => (Raise e, stock_taken product_id quantity product self)
        | Ok total_price =>
            match Order.init (next_order_id self) customer_id product_id quantity
                    (NumFloat total_price) with
            | Raise e => (Raise e, stock_taken product_id quantity product self)
            | Ok order =>
                (Ok msg_accepted,
                 set_orders (dict_set (next_order_id self) order)
                   (stock_taken product_id quantity product self))
            end
        end
  end.
Proof.
  intros H1 H2 H3. unfold place_order. unfold_method.
  rewrite !validate_nonnegative_int_ok by assumption.
  destruct (dict_get product_id (products self)) as [product|]; [|reflexivity].
  destruct (quantity >? Product.quantity product); [reflexivity|].
  simpl.
  destruct (float_mul_int (Product.price product) quantity) as [tp|e];
    [|reflexivity].
  destruct (Order.init _ _ _ _ _) as [order|e]; reflexivity.
Qed.

(** ** Every call keeps the ledger well formed *)

Lemma wf_init : wf init.
Proof.
  split; simpl; try apply keyed_nil; try constructor; try lia.
  intros k [H _]. discriminate.
Qed.

Lemma register_entity_wf entity is_customer self :
  wf self -> wf (snd (register_entity entity is_customer self)).
Proof.
  intros Hwf. unfold register_entity. unfold_method.
  destruct (validate_nonnegative_int_cases (entity_id entity) "id")
    as [[Hid ->]|[_ [m ->]]]; [|assumption].
  destruct (dict_mem (entity_id entity) (customers self)) eqn:Ec; [assumption|].
  destruct (dict_mem (entity_id entity) (suppliers self)) eqn:Es; [assumption|].
  simpl. destruct Hwf. destruct is_customer; split; simpl; try assumption.
  - now apply keyed_set.
  - intros k [Hc Hs]. rewrite dict_mem_set in Hc.
    apply orb_prop in Hc. destruct Hc as [Hc|Hc].
    + apply Z.eqb_eq in Hc. subst. congruence.
    + now apply (wf_shared_ids0 k).
  - now apply keyed_set.
  - intros k [Hc Hs]. rewrite dict_mem_set in Hs.
    apply orb_prop in Hs. destruct Hs as [Hs|Hs].
    + apply Z.eqb_eq in Hs. subst. congruence.
    + now apply (wf_shared_ids0 k).
Qed.

Lemma add_or_update_product_wf product self :
  wf self -> wf_product product ->
  wf (snd (add_or_update_product product self)).
Proof.
  intros Hwf (Hid & Hsup & Hq & Hprice). unfold add_or_update_product. unfold_method.
  destruct (dict_mem (Product.supplier_id product) (suppliers self)); [|assumption].
  simpl.
  destruct (dict_get (Product.id product) (products self)) as [existing|] eqn:Eg.
  - destruct (Product.supplier_id existing =? Product.supplier_id product) eqn:Es;
      [|assumption].
    simpl. destruct Hwf.
    destruct (keyed_get _ _ _ _ wf_products0 Eg) as [Hkey _].
    pose proof (dict_get_Forall _ _ _ _ wf_products_valid0 Eg) as (He1 & He2 & _).
    split; simpl; try assumption.
    + apply keyed_set; [assumption | simpl; assumption | assumption].
    + apply dict_values_set_Forall; [|assumption].
      repeat split; simpl; assumption.
  - simpl. destruct Hwf. split; simpl; try assumption.
    + now apply keyed_set.
    + apply dict_values_set_Forall; [|assumption]. repeat split; assumption.
Qed.

Lemma stock_taken_wf product_id quantity product self :
  wf self -> dict_get product_id (products self) = Some product ->
  0 <= quantity <= Product.quantity product ->
  wf (stock_taken product_id quantity product self).
Proof.
  intros Hwf Eg Hq. destruct Hwf.
  destruct (keyed_get _ _ _ _ wf_products0 Eg) as [Hkey Hk0].
  pose proof (dict_get_Forall _ _ _ _ wf_products_valid0 Eg) as (He1 & He2 & He3 & He4).
  unfold stock_taken. split; simpl; try assumption.
  - apply keyed_set; [assumption | simpl; assumption | assumption].
  - apply dict_values_set_Forall; [|assumption].
    repeat split; simpl; try assumption. lia.
  - eapply Forall_impl; [|eassumption]. simpl. intros k Hk. lia.
  - lia.
Qed.

Lemma place_order_wf customer_id product_id quantity self :
  wf self -> wf (snd (place_order customer_id product_id quantity self)).
Proof.
  intros Hwf.
  destruct (Z.lt_ge_cases customer_id 0) as [H1|H1];
    [destruct (place_order_invalid customer_id product_id quantity self) as [m ->];
     [now left | assumption]|].
  destruct (Z.lt_ge_cases product_id 0) as [H2|H2];
    [destruct (place_order_invalid customer_id product_id quantity self) as [m ->];
     [right; now left | assumption]|].
  destruct (Z.lt_ge_cases quantity 0) as [H3|H3];
    [destruct (place_order_invalid customer_id product_id quantity self) as [m ->];
     [right; now right | assumption]|].
  rewrite place_order_valid by assumption.
  destruct (dict_get product_id (products self)) as [product|] eqn:Eg; [|assumption].
  destruct (quantity >? Product.quantity product) eqn:Eq; [assumption|].
  assert (Hq : 0 <= quantity <= Product.quantity product).
  { rewrite Z.gtb_ltb in Eq. apply Z.ltb_ge in Eq. lia. }
  pose proof (stock_taken_wf _ _ _ _ Hwf Eg Hq) as Hwf'.
  destruct (float_mul_int _ _) as [tp|e]; [|assumption].
  destruct (Order.init _ _ _ _ _) as [order|e] eqn:Eo; [|assumption].
  apply Order_init_wf in Eo. destruct Eo as (Hwo & Hoid & _).
  simpl. destruct Hwf'. destruct Hwf. split; simpl; try assumption.
  - apply keyed_set; [assumption | assumption | lia].
  - now apply dict_values_set_Forall.
  - rewrite dict_keys_set. destruct (dict_mem _ _); [assumption|].
    apply Forall_app. split; [assumption|]. repeat constructor; lia.
Qed.

(** ** Outcomes of [remove_object] *)

(** A loop whose body only checks: it raises at the first element that
    fails the check and otherwise leaves the ledger alone. *)
Lemma for_each_check {A} (bad : A -> bool) (e : exn) (body : A -> M unit)
    (l : list A) self :
  (forall x s, body x s = if bad x then (Raise e, s) else (Ok tt, s)) ->
  for_each l body self = if existsb bad l then (Raise e, self) else (Ok tt, self).
Proof.
  intros Hbody. induction l as [|x l IH]; simpl; [reflexivity|].
  unfold bind. rewrite Hbody. destruct (bad x); simpl; [reflexivity | exact IH].
Qed.

Lemma remove_object_invalid _id class_type self :
  _id < 0 ->
  exists msg, remove_object _id class_type self = (Raise (InvalidIdException msg), self).
Proof.
  intros Hneg. unfold remove_object. unfold_method.
  rewrite validate_nonnegative_int_raises by assumption. eauto.
Qed.

Lemma remove_object_valid _id class_type self :
  0 <= _id ->
  remove_object _id class_type self =
  let ct := lower (strip class_type) in
  if String.eqb ct "customer" then
    if negb (dict_mem _id (customers self))
    then (Raise (InvalidIdException ("Customer id does not exist: " ++ str_of_int _id)),
          self)
    else if existsb (fun o => Order.customer_id o =? _id) (dict_values (orders self))
    then (Raise (InvalidIdException
            ("Cannot remove customer with existing orders: " ++ str_of_int _id)), self)
    else (Ok None, set_customers (dict_del _id) self)
  else if String.eqb ct "product" then
    if negb (dict_mem _id (products self))
    then (Raise (InvalidIdException ("Product id does not exist: " ++ str_of_int _id)),
          self)
    else if existsb (fun o => Order.product_id o =? _id) (dict_values (orders self))
    then (Raise (InvalidIdException
            ("Cannot remove product with existing orders: " ++ str_of_int _id)), self)
    else (Ok None, set_products (dict_del _id) self)
  else if String.eqb ct "supplier" then
    if negb (dict_mem _id (suppliers self))
    then (Raise (InvalidIdException ("Supplier id does not exist: " ++ str_of_int _id)),
          self)
    else if existsb (supplies self _id) (dict_values (orders self))
    then (Raise (InvalidIdException
            ("Cannot remove supplier with existing orders: " ++ str_of_int _id)), self)
    else (Ok None, set_suppliers (dict_del _id) self)
  else if String.eqb ct "order" then
    match dict_get _id (orders self) with
    | None => (Raise (InvalidIdException ("Order id does not exist: " ++ str_of_int _id)),
               self)
    | Some order => (Ok (Some (Order.quantity order)), order_removed _id order self)
    end
  else (Raise (InvalidIdException ("Invalid class_type: " ++ class_type)), self).
Proof.
  intros Hid. unfold remove_object. unfold_method.
  rewrite validate_nonnegative_int_ok by assumption. cbv zeta.
  destruct (String.eqb (lower (strip class_type)) "customer").
  { destruct (dict_mem _id (customers self)); simpl; [|reflexivity].
    rewrite (for_each_check (fun o => Order.customer_id o =? _id)
               (InvalidIdException
                  ("Cannot remove customer with existing orders: " ++ str_of_int _id))).
    - destruct (existsb _ _); reflexivity.
    - intros o s. destruct (Order.customer_id o =? _id); reflexivity. }
  destruct (String.eqb (lower (strip class_type)) "product").
  { destruct (dict_mem _id (products self)); simpl; [|reflexivity].
    rewrite (for_each_check (fun o => Order.product_id o =? _id)
               (InvalidIdException
                  ("Cannot remove product with existing orders: " ++ str_of_int _id))).
    - destruct (existsb _ _); reflexivity.
    - intros o s. destruct (Order.product_id o =? _id); reflexivity. }
  destruct (String.eqb (lower (strip class_type)) "supplier").
  { destruct (dict_mem _id (suppliers self)); simpl; [|reflexivity].
    rewrite (for_each_check (supplies self _id)
               (InvalidIdException
                  ("Cannot remove supplier with existing orders: " ++ str_of_int _id))).
    - destruct (existsb _ _); reflexivity.
    - intros o s. unfold supplies.
      destruct (dict_get (Order.product_id o) (products self)) as [p|]; [|reflexivity].
      destruct (Product.supplier_id p =? _id); reflexivity. }
  destruct (String.eqb (lower (strip class_type)) "order"); [|reflexivity].
  destruct (dict_get _id (orders self)) as [order|]; [|reflexivity].
  unfold order_removed. simpl.
  destruct (dict_get (Order.product_id order) (products self)); reflexivity.
Qed.

Lemma remove_object_wf _id class_type self :
  wf self -> wf (snd (remove_object _id class_type self)).
Proof.
  intros Hwf. destruct (Z.lt_ge_cases _id 0) as [Hneg|Hid].
  { destruct (remove_object_invalid _id class_type self Hneg) as [m ->]. assumption. }
  rewrite remove_object_valid by assumption. cbv zeta.
  destruct (String.eqb _ "customer").
  { destruct (negb _); [assumption|]. destruct (existsb _ _); [assumption|].
    destruct Hwf. split; simpl; try assumption.
    - now apply keyed_del.
    - intros k [Hc Hs]. apply (wf_shared_ids0 k). split; [|assumption].
      eapply dict_mem_del_true; eassumption. }
  destruct (String.eqb _ "product").
  { destruct (negb _); [assumption|]. destruct (existsb _ _); [assumption|].
    destruct Hwf. split; simpl; try assumption.
    - now apply keyed_del.
    - now apply dict_values_del_Forall. }
  destruct (String.eqb _ "supplier").
  { destruct (negb _); [assumption|]. destruct (existsb _ _); [assumption|].
    destruct Hwf. split; simpl; try assumption.
    - now apply keyed_del.
    - intros k [Hc Hs]. apply (wf_shared_ids0 k). split; [assumption|].
      eapply dict_mem_del_true; eassumption. }
  destruct (String.eqb _ "order"); [|assumption].
  destruct (dict_get _id (orders self)) as [order|] eqn:Eo; [|assumption].
  simpl. unfold order_removed. destruct Hwf.
  pose proof (dict_get_Forall _ _ _ _ wf_orders_valid0 Eo) as (_ & _ & _ & Hoq & _).
  destruct (dict_get (Order.product_id order) (products self)) as [p|] eqn:Ep.
  - destruct (keyed_get _ _ _ _ wf_products0 Ep) as [Hkey Hk0].
    pose proof (dict_get_Forall _ _ _ _ wf_products_valid0 Ep) as (He1 & He2 & He3 & He4).
    split; simpl; try assumption.
    + apply keyed_set; [assumption | simpl; assumption | assumption].
    + apply dict_values_set_Forall; [|assumption].
      repeat split; simpl; try assumption. lia.
    + now apply keyed_del.
    + now apply dict_values_del_Forall.
    + now apply dict_keys_del_Forall.
  - split; simpl; try assumption.
    + now apply keyed_del.
    + now apply dict_values_del_Forall.
    + now apply dict_keys_del_Forall.
Qed.

Lemma exec_wf c self : wf self -> wf (exec c self).
Proof.
  intros Hwf. destruct c; simpl.
  - now apply register_entity_wf.
  - destruct (Product.init _ _ _ _ _) as [product|e] eqn:Ep; [|assumption].
    apply add_or_update_product_wf; [assumption|].
    now apply Product_init_wf in Ep.
  - now apply place_order_wf.
  - now apply remove_object_wf.
Qed.

(** Every ledger that calls can produce is well formed. *)
Lemma reachable_wf self : reachable self -> wf self.
Proof. induction 1; [apply wf_init | now apply exec_wf]. Qed.

Lemma run_app cs1 cs2 self : run (cs1 ++ cs2) self = run cs2 (run cs1 self).
Proof. unfold run. apply fold_left_app. Qed.

Lemma reachable_run cs self : reachable self -> reachable (run cs self).
Proof.
  revert self. induction cs as [|c cs IH]; intros self Hr; simpl; [assumption|].
  apply IH. now constructor.
Qed.

Lemma run_wf cs : wf (run cs init).
Proof. apply reachable_wf, reachable_run, reachable_init. Qed.

(** ** A placement that goes through *)

Lemma dict_set_absent {V} (k : Z) (v : V) (d : dict Z V) :
  dict_mem k d = false -> dict_set k v d = (d ++ [(k, v)])%list.
Proof.
  unfold dict_mem. induction d as [|[k' v'] d IH]; simpl; [reflexivity|].
  destruct (k =? k'); [discriminate|]. intros Hm. now rewrite IH.
Qed.

(** In a well-formed ledger the next order id is not in use. *)
Lemma next_order_id_fresh self :
  wf self -> dict_mem (next_order_id self) (orders self) = false.
Proof.
  intros Hwf. apply dict_mem_false. intros Hin.
  pose proof (wf_order_ids self Hwf) as Hall. rewrite Forall_forall in Hall.
  specialize (Hall _ Hin). lia.
Qed.



(* ================================================================== *)
(** * The claims *)
(* ================================================================== *)

(** ** C1: a placement within stock *)




(** ** C2: rejections are return values *)

(** C2: for every ledger and non-negative integer arguments, [place_order]
    does not raise when the product is missing or the quantity exceeds the
    stock: it returns the rejection message (for a shortage, exactly the
    stock-shortage text) and leaves the whole ledger, stock and order-id
    counter included, as it was; the shortage message is returned exactly
    when the quantity is greater than the stock, so a quantity equal to the
    stock is not rejected. *)
Theorem place_order_rejections self customer_id product_id quantity :
  0 <= customer_id -> 0 <= product_id -> 0 <= quantity ->
  (dict_get product_id (products self) = None ->
   place_order customer_id product_id quantity self =
   (Ok "The product does not exist in the system", self)) /\
  (forall product,
     dict_get product_id (products self) = Some product ->
     (Product.quantity product < quantity ->
      place_order customer_id product_id quantity self =
      (Ok "The quantity requested for this product is greater than the quantity in stock",
       self)) /\
     (quantity <= Product.quantity product ->
      fst (place_order customer_id product_id quantity self) <>
        Ok "The quantity requested for this product is greater than the quantity in stock" /\
      fst (place_order customer_id product_id quantity self) <>
        Ok "The product does not exist in the system")).
Proof.
  intros Hc Hp Hq. rewrite place_order_valid by assumption. split.
  - intros ->. reflexivity.
  - intros product ->. split.
    + intros Hlt.
      replace (quantity >? Product.quantity product) with true; [reflexivity|].
      symmetry. rewrite Z.gtb_ltb. now apply Z.ltb_lt.
    + intros Hle.
      replace (quantity >? Product.quantity product) with false
        by (symmetry; rewrite Z.gtb_ltb; apply Z.ltb_ge; lia).
      destruct (float_mul_int _ _) as [tp|e]; [|split; discriminate].
      destruct (Order.init _ _ _ _ _) as [order|e]; split; discriminate.
Qed.

(** The scenario of C2: with one widget left, [place_order(7, 10, 5)]
    returns the shortage message; the quantity remains 1 and no order is
    created. *)
Lemma place_order_rejections_scenario :
  dict_get 10 (products sold_ledger) = Some (Product.mk 10 "Widget" 2.5 1 1) /\
  place_order 7 10 5 sold_ledger =
  (Ok "The quantity requested for this product is greater than the quantity in stock",
   sold_ledger).
Proof.
  split; [reflexivity|].
  refine (proj1 (proj2 (place_order_rejections sold_ledger 7 10 5 _ _ _)
                   (Product.mk 10 "Widget" 2.5 1 1) _) _).
  - lia.
  - lia.
  - lia.
  - reflexivity.
  - simpl. lia.
Defined.

(** ** C3: the supplier of a product never changes *)

(** C3, as stated, fails: product 10 is in the catalog with supplier 1, and
    an upsert of product 10 with the same supplier id overwrites nothing:
    supplier 1 is no longer registered, so the call raises. *)
Lemma upsert_same_supplier_raises :
  dict_get 10 (products orphan_ledger) = Some (Product.mk 10 "Widget" 2.5 1 3) /\
  dict_mem 1 (suppliers orphan_ledger) = false /\
  add_or_update_product (Product.mk 10 "Gadget" 4 1 8) orphan_ledger =
  (Raise (InvalidIdException "Supplier does not exist"), orphan_ledger).
Proof. repeat split; reflexivity. Qed.

Lemma add_or_update_product_cases product self :
  add_or_update_product product self =
  if negb (dict_mem (Product.supplier_id product) (suppliers self))
  then (Raise (InvalidIdException "Supplier does not exist"), self)
  else
    match dict_get (Product.id product) (products self) with
    | None =>
        (Ok tt, set_products (dict_set (Product.id product) product) self)
    | Some existing =>
        if negb (Product.supplier_id existing =? Product.supplier_id product)
        then (Raise (InvalidIdException "Cannot change supplier_id for existing product"),
              self)
        else
          (Ok tt,
           set_products
             (dict_set (Product.id product)
                (Product.mk (Product.id existing) (Product.name product)
                   (Product.price product) (Product.supplier_id existing)
                   (Product.quantity product)))
             self)
    end.
Proof.
  unfold add_or_update_product. unfold_method.
  destruct (negb (dict_mem _ _)); [reflexivity|].
  destruct (dict_get _ _) as [existing|]; [|reflexivity].
  destruct (negb (_ =? _)); reflexivity.
Qed.

(** One upsert keeps the id and the supplier id of every stored product. *)
Lemma add_or_update_product_keeps_supplier product self k existing :
  dict_get k (products self) = Some existing ->
  exists stored,
    dict_get k (products (snd (add_or_update_product product self))) = Some stored /\
    Product.supplier_id stored = Product.supplier_id existing /\
    Product.id stored = Product.id existing.
Proof.
  intros Hg. rewrite add_or_update_product_cases.
  destruct (negb (dict_mem _ _)); [eauto|].
  destruct (dict_get (Product.id product) (products self)) as [e|] eqn:Ee.
  - destruct (negb (_ =? _)); [eauto|]. simpl.
    destruct (Z.eq_dec (Product.id product) k) as [Heq|Hne].
    + rewrite Heq in *. rewrite dict_get_set_same.
      rewrite Hg in Ee. injection Ee as ->. eauto.
    + rewrite dict_get_set_other by assumption. eauto.
  - simpl. destruct (Z.eq_dec (Product.id product) k) as [Heq|Hne];
      [rewrite Heq in *; congruence|].
    rewrite dict_get_set_other by assumption. eauto.
Qed.

(** C3 (amended): for every product already in the catalog, its supplier
    id (and its id) is the same after any number of [add_or_update_product]
    calls; an upsert of that product id carrying a different supplier id
    raises [InvalidIdException] and leaves the ledger unchanged; an upsert
    with the same supplier id, when that supplier is still registered,
    succeeds and overwrites only name, price and quantity, keeping the
    product's id and supplier id and everything else in the ledger, and
    when that supplier is no longer registered it raises
    [InvalidIdException] and leaves the ledger unchanged. *)
Theorem upsert_keeps_supplier self k existing :
  dict_get k (products self) = Some existing ->
  (forall ps, exists stored,
     dict_get k (products (upserts ps self)) = Some stored /\
     Product.supplier_id stored = Product.supplier_id existing /\
     Product.id stored = Product.id existing) /\
  (forall product,
     Product.id product = k ->
     (Product.supplier_id product <> Product.supplier_id existing ->
      is_invalid_id (fst (add_or_update_product product self)) = true /\
      snd (add_or_update_product product self) = self) /\
     (Product.supplier_id product = Product.supplier_id existing ->
      dict_mem (Product.supplier_id product) (suppliers self) = true ->
      add_or_update_product product self =
      (Ok tt,
       set_products
         (dict_set k
            (Product.mk (Product.id existing) (Product.name product)
               (Product.price product) (Product.supplier_id existing)
               (Product.quantity product)))
         self)) /\
     (Product.supplier_id product = Product.supplier_id existing ->
      dict_mem (Product.supplier_id product) (suppliers self) = false ->
      add_or_update_product product self =
      (Raise (InvalidIdException "Supplier does not exist"), self))).
Proof.
  intros Hg. split.
  - intros ps. revert self existing Hg.
    induction ps as [|p ps IH]; intros self existing Hg; simpl; [eauto|].
    destruct (add_or_update_product_keeps_supplier p self k existing Hg)
      as (stored & Hs & Hsup & Hid).
    destruct (IH _ _ Hs) as (stored' & Hs' & Hsup' & Hid').
    exists stored'. repeat split; congruence.
  - intros product <-. rewrite add_or_update_product_cases, Hg.
    repeat split.
    + destruct (negb (dict_mem _ _)); [reflexivity|].
      replace (Product.supplier_id existing =? Product.supplier_id product) with false;
        [reflexivity|].
      symmetry. apply Z.eqb_neq. congruence.
    + destruct (negb (dict_mem _ _)); [reflexivity|].
      replace (Product.supplier_id existing =? Product.supplier_id product) with false;
        [reflexivity|].
      symmetry. apply Z.eqb_neq. congruence.
    + intros Heq Hm. rewrite Hm, Heq, Z.eqb_refl. reflexivity.
    + intros Heq Hm. rewrite Hm. reflexivity.
Qed.

(** Product 10 of the scenario ledger keeps supplier 1: an upsert that names
    supplier 2 is refused, one that names supplier 1 rewrites name, price
    and quantity. *)
Lemma upsert_keeps_supplier_scenario :
  (is_invalid_id (fst (add_or_update_product (Product.mk 10 "Gadget" 4 2 8) widget_ledger))
     = true /\
   snd (add_or_update_product (Product.mk 10 "Gadget" 4 2 8) widget_ledger)
     = widget_ledger) /\
  add_or_update_product (Product.mk 10 "Gadget" 4 1 8) widget_ledger =
  (Ok tt,
   set_products (dict_set 10 (Product.mk 10 "Gadget" 4 1 8)) widget_ledger).
Proof.
  pose proof (upsert_keeps_supplier widget_ledger 10 (Product.mk 10 "Widget" 2.5 1 3)
                eq_refl) as [_ H].
  split.
  - apply (H (Product.mk 10 "Gadget" 4 2 8) eq_refl). simpl. lia.
  - apply (H (Product.mk 10 "Gadget" 4 1 8) eq_refl); reflexivity.
Defined.

(** ** C4: one id namespace for customers and suppliers *)

Lemma register_entity_cases entity is_customer self :
  0 <= entity_id entity ->
  register_entity entity is_customer self =
  if dict_mem (entity_id entity) (customers self) ||
     dict_mem (entity_id entity) (suppliers self)
  then (Raise (InvalidIdException "Invalid id: already exists"), self)
  else if is_customer
  then (Ok tt, set_customers (dict_set (entity_id entity) entity) self)
  else (Ok tt, set_suppliers (dict_set (entity_id entity) entity) self).
Proof.
  intros Hid. unfold register_entity. unfold_method.
  rewrite validate_nonnegative_int_ok by assumption.
  destruct (_ || _); [reflexivity|]. destruct is_customer; reflexivity.
Qed.

(** C4: for every ledger and every entity (one whose id its constructor
    accepted), [register_entity] raises [InvalidIdException] exactly when
    the id is already in the customer registry or in the supplier registry,
    and then changes nothing; otherwise it succeeds, appends the entity to
    the selected registry under its id and changes nothing else.  Hence no
    ledger that calls can produce has an id in both registries. *)
Theorem register_entity_shared_ids :
  (forall self entity is_customer,
     0 <= entity_id entity ->
     let taken := dict_mem (entity_id entity) (customers self) ||
                  dict_mem (entity_id entity) (suppliers self) in
     (is_invalid_id (fst (register_entity entity is_customer self)) = taken) /\
     (taken = true ->
      register_entity entity is_customer self =
      (Raise (InvalidIdException "Invalid id: already exists"), self)) /\
     (taken = false ->
      register_entity entity is_customer self =
      (Ok tt,
       if is_customer
       then set_customers (fun d => d ++ [(entity_id entity, entity)])%list self
       else set_suppliers (fun d => d ++ [(entity_id entity, entity)])%list self))) /\
  (forall self, reachable self ->
     forall k, ~ (dict_mem k (customers self) = true /\
                  dict_mem k (suppliers self) = true)).
Proof.
  split.
  - intros self entity is_customer Hid taken.
    rewrite register_entity_cases by assumption. fold taken.
    destruct taken eqn:Et.
    + repeat split; try reflexivity. discriminate.
    + subst taken. apply orb_false_elim in Et. destruct Et as [Ec Es].
      repeat split; try discriminate.
      * now destruct is_customer.
      * intros _. destruct is_customer; unfold set_customers, set_suppliers;
          now rewrite dict_set_absent.
  - intros self Hr. apply wf_shared_ids. now apply reachable_wf.
Qed.

(** On the scenario ledger, where supplier 1 is registered: id 1 is refused
    for a customer and the ledger stays as it was; id 2 is accepted. *)
Lemma register_entity_shared_ids_scenario :
  register_entity (ECustomer (Customer.mk 1 "Ann" "LA" "Main St")) true widget_ledger =
    (Raise (InvalidIdException "Invalid id: already exists"), widget_ledger) /\
  register_entity (ECustomer (Customer.mk 2 "Ann" "LA" "Main St")) true widget_ledger =
    (Ok tt,
     set_customers (fun d => d ++ [(2, ECustomer (Customer.mk 2 "Ann" "LA" "Main St"))])%list
       widget_ledger).
Proof.
  split.
  - apply (proj1 register_entity_shared_ids widget_ledger
             (ECustomer (Customer.mk 1 "Ann" "LA" "Main St")) true);
      [simpl; lia | reflexivity].
  - apply (proj1 register_entity_shared_ids widget_ledger
             (ECustomer (Customer.mk 2 "Ann" "LA" "Main St")) true);
      [simpl; lia | reflexivity].
Defined.

(** ** C5: removing an order returns its stock *)



(** ** C6: a supplier with live orders stays *)




(** ** C8: order ids only go up *)

Lemma created_subset before after :
  (forall k, In k (dict_keys (orders after)) -> In k (dict_keys (orders before))) ->
  created before after = [].
Proof.
  intros Hsub. unfold created.
  induction (dict_keys (orders after)) as [|k ks IH]; simpl; [reflexivity|].
  replace (dict_mem k (orders before)) with true.
  - simpl. apply IH. intros k' Hk'. apply Hsub. now right.
  - symmetry. apply dict_mem_keys. apply Hsub. now left.
Qed.

Lemma created_same before after :
  orders after = orders before -> created before after = [].
Proof. intros E. apply created_subset. now rewrite E. Qed.

Lemma created_appended before after order :
  wf before ->
  orders after = dict_set (next_order_id before) order (orders before) ->
  created before after = [next_order_id before].
Proof.
  intros Hwf E. pose proof (next_order_id_fresh before Hwf) as Hfresh.
  unfold created. rewrite E, dict_keys_set, Hfresh, filter_app. simpl.
  rewrite Hfresh. simpl.
  replace (filter _ (dict_keys (orders before))) with (@nil Z); [reflexivity|].
  symmetry. apply (created_subset before before). auto.
Qed.

(** What an accepted placement did. *)
Lemma place_order_accepted_inv self customer_id product_id quantity :
  fst (place_order customer_id product_id quantity self) = Ok msg_accepted ->
  exists product order,
    dict_get product_id (products self) = Some product /\
    0 <= quantity <= Product.quantity product /\
    Order.id order = next_order_id self /\
    Order.customer_id order = customer_id /\
    snd (place_order customer_id product_id quantity self) =
    set_orders (dict_set (next_order_id self) order)
      (stock_taken product_id quantity product self).
Proof.
  destruct (Z.lt_ge_cases customer_id 0) as [H1|H1];
    [destruct (place_order_invalid customer_id product_id quantity self) as [m ->];
     [now left | discriminate]|].
  destruct (Z.lt_ge_cases product_id 0) as [H2|H2];
    [destruct (place_order_invalid customer_id product_id quantity self) as [m ->];
     [right; now left | discriminate]|].
  destruct (Z.lt_ge_cases quantity 0) as [H3|H3];
    [destruct (place_order_invalid customer_id product_id quantity self) as [m ->];
     [right; now right | discriminate]|].
  rewrite place_order_valid by assumption.
  destruct (dict_get product_id (products self)) as [product|]; [|discriminate].
  destruct (quantity >? Product.quantity product) eqn:Eq; [discriminate|].
  destruct (float_mul_int _ _) as [tp|e]; [|discriminate].
  destruct (Order.init _ _ _ _ _) as [order|e] eqn:Eo; [|discriminate].
  intros _. exists product, order.
  apply Order_init_wf in Eo. destruct Eo as (_ & Hoid & Hoc & _).
  rewrite Z.gtb_ltb in Eq. apply Z.ltb_ge in Eq.
  repeat split; try assumption.
Qed.

(** What any placement did to the orders and the counter. *)
Lemma place_order_orders self customer_id product_id quantity :
  let after := snd (place_order customer_id product_id quantity self) in
  (orders after = orders self /\ next_order_id self <= next_order_id after) \/
  (exists order,
     orders after = dict_set (next_order_id self) order (orders self) /\
     next_order_id after = next_order_id self + 1).
Proof.
  cbv zeta.
  destruct (Z.lt_ge_cases customer_id 0) as [H1|H1];
    [destruct (place_order_invalid customer_id product_id quantity self) as [m ->];
     [now left | simpl; left; split; [reflexivity | lia]]|].
  destruct (Z.lt_ge_cases product_id 0) as [H2|H2];
    [destruct (place_order_invalid customer_id product_id quantity self) as [m ->];
     [right; now left | simpl; left; split; [reflexivity | lia]]|].
  destruct (Z.lt_ge_cases quantity 0) as [H3|H3];
    [destruct (place_order_invalid customer_id product_id quantity self) as [m ->];
     [right; now right | simpl; left; split; [reflexivity | lia]]|].
  rewrite place_order_valid by assumption.
  destruct (dict_get product_id (products self)) as [product|];
    [|simpl; left; split; [reflexivity | lia]].
  destruct (quantity >? Product.quantity product);
    [simpl; left; split; [reflexivity | lia]|].
  destruct (float_mul_int _ _) as [tp|e];
    [|simpl; left; split; [reflexivity | lia]].
  destruct (Order.init _ _ _ _ _) as [order|e]; simpl.
  - right. exists order. split; reflexivity.
  - left. split; [reflexivity | lia].
Qed.

Lemma remove_object_orders self _id class_type :
  let after := snd (remove_object _id class_type self) in
  (forall k, In k (dict_keys (orders after)) -> In k (dict_keys (orders self))) /\
  next_order_id after = next_order_id self.
Proof.
  cbv zeta. destruct (Z.lt_ge_cases _id 0) as [Hneg|Hid].
  { destruct (remove_object_invalid _id class_type self Hneg) as [m ->]. now split. }
  rewrite remove_object_valid by assumption. cbv zeta.
  destruct (String.eqb _ "customer").
  { destruct (negb _); [now split|]. destruct (existsb _ _); now split. }
  destruct (String.eqb _ "product").
  { destruct (negb _); [now split|]. destruct (existsb _ _); now split. }
  destruct (String.eqb _ "supplier").
  { destruct (negb _); [now split|]. destruct (existsb _ _); now split. }
  destruct (String.eqb _ "order"); [|now split].
  destruct (dict_get _id (orders self)) as [order|]; [|now split].
  unfold order_removed.
  destruct (dict_get (Order.product_id order) (products self)); simpl;
    (split; [intros k; apply In_keys_del | reflexivity]).
Qed.

(** One call creates at most one order id, the counter's value, and never
    lowers the counter below the id it handed out. *)
Lemma created_exec c self :
  wf self ->
  next_order_id self <= next_order_id (exec c self) /\
  (created self (exec c self) = [] \/
   (created self (exec c self) = [next_order_id self] /\
    next_order_id self < next_order_id (exec c self))).
Proof.
  intros Hwf. destruct c as [entity is_customer | id name price sid q | cid pid q | i ct];
    simpl.
  - unfold register_entity. unfold_method.
    destruct (validate_nonnegative_int _ _); simpl;
      [|split; [lia | left; now apply created_same]].
    destruct (_ || _); simpl; [split; [lia | left; now apply created_same]|].
    destruct is_customer; simpl; (split; [lia | left; now apply created_same]).
  - destruct (Product.init _ _ _ _ _) as [product|e];
      [|split; [lia | left; now apply created_same]].
    rewrite add_or_update_product_cases.
    destruct (negb _); simpl; [split; [lia | left; now apply created_same]|].
    destruct (dict_get _ _) as [existing|]; simpl;
      [|split; [lia | left; now apply created_same]].
    destruct (negb _); simpl; (split; [lia | left; now apply created_same]).
  - destruct (place_order_orders self cid pid q) as [[Ho Hn] | (order & Ho & Hn)].
    + split; [assumption|]. left. now apply created_same.
    + split; [lia|]. right. split; [|lia]. eapply created_appended; eassumption.
  - destruct (remove_object_orders self i ct) as [Hsub Hn]. split; [lia|].
    left. now apply created_subset.
Qed.

Lemma created_by_increasing cs self :
  wf self ->
  StronglySorted Z.lt (created_by cs self) /\
  Forall (fun k => next_order_id self <= k) (created_by cs self).
Proof.
  revert self. induction cs as [|c cs IH]; intros self Hwf; simpl.
  - split; constructor.
  - destruct (IH (exec c self) (exec_wf c self Hwf)) as [Hs Hall].
    destruct (created_exec c self Hwf) as [Hn [-> | [-> Hlt]]]; simpl.
    + split; [assumption|]. eapply Forall_impl; [|eassumption].
      simpl. intros k Hk. lia.
    + split.
      * constructor; [assumption|]. eapply Forall_impl; [|eassumption].
        simpl. intros k Hk. lia.
      * constructor; [lia|]. eapply Forall_impl; [|eassumption].
        simpl. intros k Hk. lia.
Qed.

(** C8: the order-id counter starts at 1 and no call lowers it; an
    accepted [place_order] files the new order under the counter's current
    value, an id no order of the ledger has, and advances the counter by
    one; so the ids that any sequence of calls creates, from any ledger
    that calls can produce, are strictly increasing and at least the
    counter's value (at least 1); and once an order is removed, no later
    call creates an order with its id. *)
Theorem order_ids_never_reused :
  next_order_id init = 1 /\
  (forall self c, reachable self -> next_order_id self <= next_order_id (exec c self)) /\
  (forall self customer_id product_id quantity,
     reachable self ->
     fst (place_order customer_id product_id quantity self) =
       Ok "The order has been accepted in the system" ->
     let after := snd (place_order customer_id product_id quantity self) in
     dict_mem (next_order_id self) (orders self) = false /\
     created self after = [next_order_id self] /\
     (exists order, dict_get (next_order_id self) (orders after) = Some order /\
                    Order.id order = next_order_id self) /\
     next_order_id after = next_order_id self + 1) /\
  (forall self cs,
     reachable self ->
     StronglySorted Z.lt (created_by cs self) /\
     Forall (fun k => 1 <= next_order_id self <= k) (created_by cs self)) /\
  (forall self _id cs,
     reachable self ->
     dict_mem _id (orders self) = true ->
     ~ In _id (created_by cs (snd (remove_object _id "order" self)))).
Proof.
  split; [reflexivity|]. split; [|split; [|split]].
  - intros self c Hr. apply created_exec. now apply reachable_wf.
  - intros self customer_id product_id quantity Hr Hok after. subst after.
    apply reachable_wf in Hr.
    destruct (place_order_accepted_inv self customer_id product_id quantity Hok)
      as (product & order & _ & _ & Hid & _ & E).
    split; [now apply next_order_id_fresh|].
    split; [apply created_appended with order; [assumption | now rewrite E]|].
    rewrite E. simpl. split; [|reflexivity].
    exists order. split; [apply dict_get_set_same | assumption].
  - intros self cs Hr. apply reachable_wf in Hr.
    destruct (created_by_increasing cs self Hr) as [Hs Hall].
    split; [assumption|]. eapply Forall_impl; [|eassumption].
    simpl. intros k Hk. pose proof (wf_next_order_id self Hr). lia.
  - intros self _id cs Hr Hm Hin.
    assert (Hwf : wf self) by now apply reachable_wf.
    destruct (remove_object_orders self _id "order") as [_ Hn].
    destruct (created_by_increasing cs (snd (remove_object _id "order" self)))
      as [_ Hall]; [now apply remove_object_wf|].
    rewrite Forall_forall in Hall. specialize (Hall _ Hin). rewrite Hn in Hall.
    pose proof (wf_order_ids self Hwf) as Hids. rewrite Forall_forall in Hids.
    apply dict_mem_keys in Hm. specialize (Hids _ Hm). lia.
Qed.

(** On the scenario ledger the first order gets id 1; after it is removed,
    the next order gets id 2, not 1 again. *)
Lemma order_ids_never_reused_scenario :
  created widget_ledger (snd (place_order 7 10 2 widget_ledger)) = [1] /\
  created_by [CmdOrder 7 10 2; CmdRemove 1 "order"; CmdOrder 7 10 2] widget_ledger = [1; 2] /\
  ~ In 1 (created_by [CmdOrder 7 10 2] (snd (remove_object 1 "order" sold_ledger))).
Proof.
  destruct order_ids_never_reused as (_ & _ & Hplace & _ & Hgone).
  split; [|split].
  - apply (Hplace widget_ledger 7 10 2); [|reflexivity].
    apply reachable_run, reachable_init.
  - reflexivity.
  - apply Hgone; [|reflexivity]. apply reachable_run, reachable_init.
Defined.

(** ** C10: the customer of an order need not be registered *)




(** ** C9: orders exported by supplier city *)

Lemma export_loop_fold self os grouped :
  export_loop self os grouped = fold_left export_step (exported self os) grouped.
Proof.
  revert grouped. induction os as [|o os IH]; intros grouped; simpl; [reflexivity|].
  unfold order_city.
  destruct (dict_get (Order.product_id o) (products self)) as [p|]; [|apply IH].
  destruct (dict_get (Product.supplier_id p) (suppliers self)) as [s|]; [|apply IH].
  simpl. rewrite IH. reflexivity.
Qed.


Lemma seenb_In c cs : seenb c cs = true <-> In c cs.
Proof.
  unfold seenb. rewrite existsb_exists. split.
  - intros (x & Hin & Heq). apply String.eqb_eq in Heq. now subst.
  - intros Hin. exists c. split; [assumption | apply String.eqb_refl].
Qed.

Lemma first_seen_In c cs : In c (first_seen cs) <-> In c cs.
Proof.
  induction cs as [|a cs IH]; simpl; [tauto|].
  rewrite filter_In, IH. destruct (String.eqb_spec c a) as [->|Hne]; simpl.
  - split; [now left | now left].
  - split.
    + intros [-> | [Hin _]]; [now left | now right].
    + intros [-> | Hin]; [now left | right; now split].
Qed.

Lemma first_seen_NoDup cs : NoDup (first_seen cs).
Proof.
  induction cs as [|a cs IH]; simpl; constructor.
  - rewrite filter_In. intros [_ Hne]. now rewrite String.eqb_refl in Hne.
  - now apply NoDup_filter.
Qed.

Lemma first_seen_snoc cs c :
  first_seen (cs ++ [c]) =
  if seenb c cs then first_seen cs else (first_seen cs ++ [c])%list.
Proof.
  induction cs as [|a cs IH]; simpl; [reflexivity|].
  rewrite IH. destruct (String.eqb_spec c a) as [->|Hne]; simpl.
  - destruct (seenb a cs); [reflexivity|].
    rewrite filter_app. simpl. rewrite String.eqb_refl. simpl.
    now rewrite app_nil_r.
  - destruct (seenb c cs); [reflexivity|].
    rewrite filter_app. simpl.
    destruct (String.eqb_spec c a) as [->|_]; [contradiction|]. reflexivity.
Qed.

Lemma orders_of_city_snoc city l c o :
  orders_of_city city (l ++ [(c, o)]) =
  (orders_of_city city l ++ if String.eqb c city then [Order.repr o] else [])%list.
Proof.
  unfold orders_of_city. rewrite filter_app, map_app. simpl.
  destruct (String.eqb c city); reflexivity.
Qed.

Lemma orders_of_city_unseen city l :
  seenb city (map fst l) = false -> orders_of_city city l = [].
Proof.
  unfold orders_of_city. induction l as [|[c o] l IH]; simpl; [reflexivity|].
  destruct (String.eqb_spec city c) as [->|Hne]; simpl; [discriminate|].
  intros Hs. destruct (String.eqb_spec c city) as [->|_]; [contradiction|]. auto.
Qed.

Section Tabulated.
Context {V : Type}.

Lemma tabulate_get (f : string -> V) ks k :
  dict_get k (tabulate f ks) = if seenb k ks then Some (f k) else None.
Proof.
  induction ks as [|a ks IH]; simpl; [reflexivity|].
  destruct (String.eqb_spec k a) as [->|Hne]; simpl; [reflexivity | exact IH].
Qed.

Lemma tabulate_mem (f : string -> V) ks k : dict_mem k (tabulate f ks) = seenb k ks.
Proof. unfold dict_mem. rewrite tabulate_get. now destruct (seenb k ks). Qed.

Lemma dict_set_last (d : dict string V) k v w :
  dict_mem k d = false -> dict_set k v (d ++ [(k, w)])%list = (d ++ [(k, v)])%list.
Proof.
  unfold dict_mem. induction d as [|[a x] d IH]; simpl.
  - now rewrite String.eqb_refl.
  - destruct (String.eqb k a); [discriminate|]. intros Hm. now rewrite IH.
Qed.

Lemma dict_set_new (d : dict string V) k v :
  dict_mem k d = false -> dict_set k v d = (d ++ [(k, v)])%list.
Proof.
  unfold dict_mem. induction d as [|[a x] d IH]; simpl; [reflexivity|].
  destruct (String.eqb k a); [discriminate|]. intros Hm. now rewrite IH.
Qed.

Lemma tabulate_set (f g : string -> V) ks k v :
  NoDup ks -> In k ks -> g k = v -> (forall k', k' <> k -> g k' = f k') ->
  dict_set k v (tabulate f ks) = tabulate g ks.
Proof.
  intros Hnd Hin Hk Hother. induction ks as [|a ks IH]; simpl; [destruct Hin|].
  inversion Hnd as [|? ? Hnotin Hnd']; subst.
  destruct (String.eqb_spec k a) as [->|Hne].
  - f_equal. unfold tabulate. apply map_ext_in. intros k' Hk'.
    rewrite Hother; [reflexivity|]. intros ->. contradiction.
  - rewrite (Hother a) by congruence. f_equal.
    apply IH; [assumption|]. destruct Hin as [->|Hin]; [contradiction | assumption].
Qed.

End Tabulated.

Lemma export_step_grouped l c o :
  export_step (grouped_by_city l) (c, o) = grouped_by_city (l ++ [(c, o)]).
Proof.
  unfold export_step, grouped_by_city. simpl.
  change (map (fun city => (city, orders_of_city city ?x)))
    with (tabulate (fun city => orders_of_city city x)).
  fold (tabulate (fun city => orders_of_city city l) (first_seen (map fst l))).
  fold (tabulate (fun city => orders_of_city city (l ++ [(c, o)]))
          (first_seen (map fst (l ++ [(c, o)])))).
  rewrite map_app. simpl. rewrite first_seen_snoc.
  rewrite tabulate_mem.
  assert (Hseen : seenb c (first_seen (map fst l)) = seenb c (map fst l)).
  { apply eq_true_iff_eq. rewrite !seenb_In. apply first_seen_In. }
  rewrite Hseen. destruct (seenb c (map fst l)) eqn:E; cbn [negb].
  - rewrite tabulate_get, Hseen.
    apply tabulate_set.
    + apply first_seen_NoDup.
    + apply first_seen_In, seenb_In. assumption.
    + rewrite orders_of_city_snoc, String.eqb_refl. reflexivity.
    + intros k' Hk'. rewrite orders_of_city_snoc.
      destruct (String.eqb_spec c k') as [->|_]; [contradiction|].
      now rewrite app_nil_r.
  - assert (Hm : dict_mem c (tabulate (fun city => orders_of_city city l)
                               (first_seen (map fst l))) = false)
      by (rewrite tabulate_mem; exact Hseen).
    rewrite (dict_set_new _ c []) by assumption.
    replace (dict_get c _) with (Some (@nil string)).
    + rewrite dict_set_last by assumption. unfold tabulate. rewrite map_app. simpl.
      rewrite orders_of_city_snoc, String.eqb_refl, orders_of_city_unseen by assumption.
      f_equal. apply map_ext_in. intros k' Hk'. rewrite orders_of_city_snoc.
      destruct (String.eqb_spec c k') as [->|_]; [|now rewrite app_nil_r].
      apply seenb_In in Hk'. congruence.
    + symmetry. rewrite <- (dict_set_new _ c []) by assumption.
      apply dict_get_set_same.
Qed.

Lemma export_fold_grouped l' l :
  fold_left export_step l' (grouped_by_city l) = grouped_by_city (l ++ l').
Proof.
  revert l. induction l' as [|[c o] l' IH]; intros l; simpl.
  - now rewrite app_nil_r.
  - rewrite export_step_grouped, IH, <- app_assoc. reflexivity.
Qed.



(** ** C7: search *)

Lemma prefixb_spec p s : prefixb p s = true <-> exists post, s = p ++ post.
Proof.
  revert s. induction p as [|a p IH]; intros s; simpl.
  - split; [eauto | reflexivity].
  - destruct s as [|b s].
    + split; [discriminate | intros [post Hp]; discriminate].
    + rewrite andb_true_iff, IH. split.
      * intros [Hab [post ->]]. apply Ascii.eqb_eq in Hab. subst. eauto.
      * intros [post [= -> ->]]. split; [apply Ascii.eqb_refl | eauto].
Qed.

(** [q in s] holds exactly when [s] is [q] between two strings. *)
Lemma str_contains_spec q s :
  str_contains q s = true <-> exists pre post, s = pre ++ q ++ post.
Proof.
  induction s as [|b s IH].
  - simpl. rewrite orb_false_r, prefixb_spec. split.
    + intros [post Hp]. exists EmptyString, post. exact Hp.
    + intros (pre & post & Hp). destruct pre as [|c pre]; [|discriminate].
      eauto.
  - cbn [str_contains]. rewrite orb_true_iff, prefixb_spec, IH. split.
    + intros [[post Hp] | (pre & post & ->)].
      * exists EmptyString, post. exact Hp.
      * exists (String b pre), post. reflexivity.
    + intros (pre & post & Hp). destruct pre as [|c pre].
      * left. eauto.
      * right. injection Hp as -> ->. eauto.
Qed.

Lemma search_loop_filter query max_price ps res :
  search_loop query max_price ps res = (res ++ filter (keeps query max_price) ps)%list.
Proof.
  revert res. induction ps as [|p ps IH]; intros res; simpl.
  - now rewrite app_nil_r.
  - unfold keeps at 1.
    destruct (Product.quantity p =? 0); simpl; [apply IH|].
    destruct (str_contains query (Product.name p)); simpl; [|apply IH].
    destruct (match max_price with Some _ => _ | None => _ end); simpl; [apply IH|].
    rewrite IH, <- app_assoc. reflexivity.
Qed.

(** On a valid product with a price that is a number, and a price limit
    that is a number, the loop's test is the contract's. *)
Lemma keeps_matches query max_price p :
  0 <= Product.quantity p -> is_number (Product.price p) ->
  (forall mp, max_price = Some mp -> is_number mp) ->
  keeps query max_price p = matches query max_price p.
Proof.
  intros Hq Hp Hmp. unfold keeps, matches. f_equal; [f_equal|].
  - destruct (Z.eqb_spec (Product.quantity p) 0) as [->|Hne]; simpl; [reflexivity|].
    symmetry. apply Z.ltb_lt. lia.
  - destruct max_price as [mp|]; [|reflexivity].
    symmetry. apply leb_not_ltb; [assumption | now apply Hmp].
Qed.

Lemma StronglySorted_refine {A} (R R' : A -> A -> Prop) (l : list A) :
  (forall a b, In a l -> In b l -> a <> b -> R a b -> R' a b) ->
  NoDup l -> StronglySorted R l -> StronglySorted R' l.
Proof.
  intros Href Hnd Hs. induction Hs as [|a l Hs IH Hall]; [constructor|].
  inversion Hnd as [|? ? Hnotin Hnd']; subst. constructor.
  - apply IH; [|assumption]. intros x y Hx Hy. apply Href; now right.
  - rewrite Forall_forall in *. intros b Hb.
    apply Href; [now left | now right | | now apply Hall].
    intros ->. contradiction.
Qed.

(** A list has one sorted arrangement under an order that never holds both
    ways. *)
Lemma StronglySorted_unique {A} (R : A -> A -> Prop) (l1 l2 : list A) :
  (forall a b, In a l1 -> In b l1 -> R a b -> R b a -> False) ->
  StronglySorted R l1 -> StronglySorted R l2 -> Permutation l1 l2 -> l1 = l2.
Proof.
  revert l2. induction l1 as [|a t1 IH]; intros l2 Hasym H1 H2 Hperm.
  - apply Permutation_nil in Hperm. now subst.
  - destruct l2 as [|b t2];
      [apply Permutation_sym, Permutation_nil in Hperm; discriminate|].
    apply StronglySorted_inv in H1. destruct H1 as [H1 Ha].
    apply StronglySorted_inv in H2. destruct H2 as [H2 Hb].
    rewrite Forall_forall in Ha, Hb.
    assert (Hab : a = b).
    { assert (Hin_a : In a (b :: t2))
        by (eapply Permutation_in; [eassumption | now left]).
      assert (Hin_b : In b (a :: t1))
        by (eapply Permutation_in; [apply Permutation_sym; eassumption | now left]).
      destruct Hin_a as [-> | Hat2]; [reflexivity|].
      destruct Hin_b as [-> | Hbt1]; [reflexivity|].
      exfalso. apply (Hasym a b); [now left | now right | now apply Ha | now apply Hb]. }
    subst b. f_equal. apply Permutation_cons_inv in Hperm.
    apply IH; try assumption.
    intros x y Hx Hy. apply Hasym; now right.
Qed.

Lemma keyed_values_NoDup (d : dict Z Product.t) :
  keyed Product.id d -> NoDup (map Product.id (dict_values d)).
Proof.
  intros [Hnd Hid]. unfold dict_values. rewrite map_map.
  replace (map (fun x => Product.id (snd x)) d) with (dict_keys d); [assumption|].
  unfold dict_keys. apply map_ext_in. intros [k v] Hin. simpl.
  symmetry. now apply Hid.
Qed.

Lemma NoDup_map_filter {A B} (f : A -> B) (g : A -> bool) (l : list A) :
  NoDup (map f l) -> NoDup (map f (filter g l)).
Proof.
  induction l as [|a l IH]; simpl; intros Hnd; [constructor|].
  inversion Hnd as [|? ? Hnotin Hnd']; subst.
  destruct (g a); simpl; [|auto]. constructor; [|auto].
  intros Hin. apply Hnotin. rewrite in_map_iff in *.
  destruct Hin as (x & Hx & Hin). exists x. split; [assumption|].
  now apply filter_In in Hin.
Qed.

Lemma NoDup_map_inv_neq {A B} (f : A -> B) (l : list A) a b :
  NoDup (map f l) -> In a l -> In b l -> a <> b -> f a <> f b.
Proof.
  induction l as [|x l IH]; simpl; intros Hnd Ha Hb Hne; [destruct Ha|].
  inversion Hnd as [|? ? Hnotin Hnd']; subst.
  destruct Ha as [-> | Ha], Hb as [-> | Hb].
  - congruence.
  - intros Heq. apply Hnotin. rewrite Heq. now apply in_map.
  - intros Heq. apply Hnotin. rewrite <- Heq. now apply in_map.
  - now apply IH.
Qed.

Lemma filter_Permutation {A} (f : A -> bool) (l l' : list A) :
  Permutation l l' -> Permutation (filter f l) (filter f l').
Proof.
  induction 1 as [| x l l' Hp IH | x y l | l l' l'' H1 IH1 H2 IH2]; simpl.
  - constructor.
  - destruct (f x); [now constructor | assumption].
  - destruct (f x), (f y); try reflexivity. apply perm_swap.
  - now transitivity (filter f l').
Qed.

Lemma filter_none {A} (f : A -> bool) (l : list A) :
  (forall x, In x l -> f x = false) -> filter f l = [].
Proof.
  induction l as [|a l IH]; intros Hnone; simpl; [reflexivity|].
  rewrite Hnone by now left. apply IH. intros x Hx. apply Hnone. now right.
Qed.

Lemma price_then_id_asym a b :
  is_number (Product.price a) -> is_number (Product.price b) ->
  price_then_id a b -> price_then_id b a -> False.
Proof.
  intros Ha Hb Hab Hba.
  apply Product_lt_price_then_id in Hab; try assumption.
  apply Product_lt_price_then_id in Hba; try assumption.
  rewrite (Product_lt_asym a b Ha Hb Hab) in Hba. discriminate.
Qed.

(** In a well-formed ledger whose prices are numbers, a search with a
    price limit that is a number returns the matching products, each once,
    in ascending order of price and then id. *)
Lemma search_products_sorted self query max_price :
  wf self -> priced self ->
  (forall mp, max_price = Some mp -> is_number mp) ->
  Permutation (search_products query max_price self)
    (filter (matches query max_price) (dict_values (products self))) /\
  Forall (fun p => is_number (Product.price p)) (search_products query max_price self) /\
  StronglySorted price_then_id (search_products query max_price self).
Proof.
  intros Hwf Hnum Hmp. unfold search_products.
  rewrite search_loop_filter. simpl.
  assert (Hfilter : filter (keeps query max_price) (dict_values (products self)) =
                    filter (matches query max_price) (dict_values (products self))).
  { apply filter_ext_in. intros p Hp. apply keeps_matches; [| |assumption].
    - pose proof (wf_products_valid self Hwf) as Hv. rewrite Forall_forall in Hv.
      now apply Hv.
    - unfold priced in Hnum. rewrite Forall_forall in Hnum. now apply Hnum. }
  rewrite Hfilter.
  set (hits := filter (matches query max_price) (dict_values (products self))).
  assert (Hperm : Permutation (sorted Product.lt hits) hits) by apply sorted_perm.
  assert (Hhits : Forall (fun p => is_number (Product.price p)) hits).
  { unfold priced in Hnum. rewrite Forall_forall in *. intros p Hp.
    apply Hnum. subst hits. now apply filter_In in Hp. }
  assert (Hfound : Forall (fun p => is_number (Product.price p)) (sorted Product.lt hits)).
  { eapply Permutation_Forall; [apply Permutation_sym; exact Hperm | exact Hhits]. }
  split; [exact Hperm|]. split; [exact Hfound|].
  assert (Hids : NoDup (map Product.id (sorted Product.lt hits))).
  { eapply Permutation_NoDup;
      [apply Permutation_map, Permutation_sym; exact Hperm|].
    subst hits. apply NoDup_map_filter, keyed_values_NoDup, (wf_products self Hwf). }
  pose proof (sorted_sorted Product.lt (fun p => is_number (Product.price p))
                Product_lt_asym Product_lt_ntrans hits Hhits) as Hs.
  eapply StronglySorted_refine; [| eapply NoDup_map_inv; exact Hids | exact Hs].
  intros a b Ha Hb Hne Hle. rewrite Forall_forall in Hfound.
  apply Product_lt_price_then_id; [now apply Hfound | now apply Hfound |].
  apply Product_lt_total; [now apply Hfound | now apply Hfound | | exact Hle].
  eapply NoDup_map_inv_neq; eassumption.
Qed.

(** X1 (C7 for prices that are numbers): in every well-formed ledger in
    which no price is [nan], a search whose price limit, if given, is not
    [nan] returns exactly the products with quantity above zero whose name
    contains the query and whose price is at most the limit, each once,
    sorted in strictly ascending order of price with ties broken by
    ascending id; the result is the same for any other registry order of
    the same catalog, and it is empty when no product matches. *)
Theorem search_products_exact self query max_price :
  wf self -> priced self ->
  (forall mp, max_price = Some mp -> is_number mp) ->
  let found := search_products query max_price self in
  Permutation found (filter (matches query max_price) (dict_values (products self))) /\
  (forall p,
     In p found <->
     In p (dict_values (products self)) /\ 0 < Product.quantity p /\
     (exists pre post, Product.name p = pre ++ query ++ post) /\
     (forall mp, max_price = Some mp -> PrimFloat.leb (Product.price p) mp = true)) /\
  StronglySorted price_then_id found /\
  (forall other,
     wf other -> Permutation (products other) (products self) ->
     search_products query max_price other = found) /\
  ((forall p, In p (dict_values (products self)) -> matches query max_price p = false) ->
   found = []).
Proof.
  intros Hwf Hnum Hmp found. subst found.
  destruct (search_products_sorted self query max_price Hwf Hnum Hmp)
    as (Hperm & Hfound & Hs).
  split; [exact Hperm|]. split; [|split; [exact Hs|split]].
  - intros p. split.
    + intros Hin. apply (Permutation_in _ Hperm) in Hin.
      apply filter_In in Hin. destruct Hin as [Hin Hm]. unfold matches in Hm.
      apply andb_true_iff in Hm. destruct Hm as [Hm Hprice].
      apply andb_true_iff in Hm. destruct Hm as [Hq Hname].
      repeat split; [assumption | now apply Z.ltb_lt | now apply str_contains_spec |].
      intros mp ->. exact Hprice.
    + intros (Hin & Hq & Hname & Hprice).
      apply (Permutation_in _ (Permutation_sym Hperm)).
      apply filter_In. split; [assumption|]. unfold matches.
      rewrite !andb_true_iff. repeat split.
      * now apply Z.ltb_lt.
      * now apply str_contains_spec.
      * destruct max_price as [mp|]; [now apply Hprice | reflexivity].
  - intros other Hwf' Hcat.
    assert (Hvals : Permutation (dict_values (products other))
                      (dict_values (products self)))
      by (unfold dict_values; now apply Permutation_map).
    assert (Hnum' : priced other).
    { unfold priced. eapply Permutation_Forall;
        [apply Permutation_sym; exact Hvals | exact Hnum]. }
    destruct (search_products_sorted other query max_price Hwf' Hnum' Hmp)
      as (Hperm' & Hfound' & Hs').
    apply (StronglySorted_unique price_then_id); try assumption.
    + intros a b Ha Hb. rewrite Forall_forall in Hfound'.
      apply price_then_id_asym; now apply Hfound'.
    + rewrite Hperm', Hperm. now apply filter_Permutation.
  - intros Hnone.
    replace (filter (matches query max_price) (dict_values (products self)))
      with (@nil Product.t) in Hperm.
    + now apply Permutation_sym, Permutation_nil in Hperm.
    + symmetry. now apply filter_none.
Qed.

(** On the catalog of three widgets the search finds them cheapest
    first. *)
Lemma search_products_exact_scenario :
  search_products "Widget" None three_widgets =
    [Product.mk 3 "Widget C" 1 1 5; Product.mk 2 "Widget B" 1.5 1 5;
     Product.mk 1 "Widget A" 2 1 5] /\
  StronglySorted price_then_id (search_products "Widget" None three_widgets).
Proof.
  split; [reflexivity|].
  refine (proj1 (proj2 (proj2 (search_products_exact three_widgets "Widget" None
                                 (run_wf _) _ _)))).
  - repeat constructor.
  - discriminate.
Defined.

(** C7 at a failing input: [nan] is not below zero, so the constructor
    accepts it as a price; with such a product in the catalog the search
    returns the products in registry order, the one at 2.0 before the one
    at 1.0, which is not ascending by price, and it returns them in another
    order when the same catalog was filled in another order.  A [nan] price
    limit filters nothing, although no price is at most [nan]. *)
Theorem search_products_nan_price :
  Product.init 2 "Widget B" (NumFloat nan) 1 5 = Ok (Product.mk 2 "Widget B" nan 1 5) /\
  search_products "Widget" None nan_widgets =
    [Product.mk 1 "Widget A" 2 1 5; Product.mk 2 "Widget B" nan 1 5;
     Product.mk 3 "Widget C" 1 1 5] /\
  ~ StronglySorted price_then_id (search_products "Widget" None nan_widgets) /\
  price_then_id (Product.mk 3 "Widget C" 1 1 5) (Product.mk 1 "Widget A" 2 1 5) /\
  Permutation (products nan_widgets_reversed) (products nan_widgets) /\
  search_products "Widget" None nan_widgets_reversed =
    [Product.mk 3 "Widget C" 1 1 5; Product.mk 2 "Widget B" nan 1 5;
     Product.mk 1 "Widget A" 2 1 5] /\
  search_products "Widget" (Some nan) widget_ledger = [Product.mk 10 "Widget" 2.5 1 3] /\
  matches "Widget" (Some nan) (Product.mk 10 "Widget" 2.5 1 3) = false.
Proof.
  assert (E : search_products "Widget" None nan_widgets =
              [Product.mk 1 "Widget A" 2 1 5; Product.mk 2 "Widget B" nan 1 5;
               Product.mk 3 "Widget C" 1 1 5]) by (vm_compute; reflexivity).
  split; [vm_compute; reflexivity|]. split; [exact E|]. split; [|split; [|split]].
  - rewrite E. intros Hs. apply StronglySorted_inv in Hs. destruct Hs as [_ Hall].
    apply Forall_inv in Hall. destruct Hall as [Hlt | [Heq _]]; vm_compute in *;
      discriminate.
  - left. vm_compute. reflexivity.
  - change (products nan_widgets_reversed)
      with (rev (products nan_widgets)). symmetry. apply Permutation_rev.
  - repeat split; vm_compute; reflexivity.
Qed.

(** ** Further properties *)

(** X2: in every ledger that calls can produce, each registry files every
    object once, under its own non-negative id; every product has a
    non-negative supplier id, a stock that is not negative and a price that
    is not below zero; every order has an id of at least 1 that is below
    the order-id counter, a non-negative quantity and a total that is not
    below zero. *)
Theorem reachable_ledger_invariants self :
  reachable self ->
  NoDup (dict_keys (customers self)) /\ NoDup (dict_keys (suppliers self)) /\
  NoDup (dict_keys (products self)) /\ NoDup (dict_keys (orders self)) /\
  (forall k e, dict_get k (customers self) = Some e \/ dict_get k (suppliers self) = Some e ->
     entity_id e = k /\ 0 <= k) /\
  (forall k p, dict_get k (products self) = Some p ->
     Product.id p = k /\ 0 <= k /\ 0 <= Product.supplier_id p /\
     0 <= Product.quantity p /\ PrimFloat.ltb (Product.price p) 0%float = false) /\
  (forall k o, dict_get k (orders self) = Some o ->
     Order.id o = k /\ 1 <= k < next_order_id self /\ 0 <= Order.customer_id o /\
     0 <= Order.product_id o /\ 0 <= Order.quantity o /\
     PrimFloat.ltb (Order.total_price o) 0%float = false).
Proof.
  intros Hr. apply reachable_wf in Hr.
  destruct Hr as [Hc Hs _ Hp Hpv Ho Hov Hoi _].
  split; [apply Hc|]. split; [apply Hs|]. split; [apply Hp|]. split; [apply Ho|].
  split; [|split].
  - intros k e [Hg|Hg];
      [exact (keyed_get _ _ _ _ Hc Hg) | exact (keyed_get _ _ _ _ Hs Hg)].
  - intros k p Hg. destruct (keyed_get _ _ _ _ Hp Hg) as [Hid Hk].
    destruct (dict_get_Forall _ _ _ _ Hpv Hg) as (_ & H2 & H3 & H4).
    repeat split; assumption.
  - intros k o Hg. destruct (keyed_get _ _ _ _ Ho Hg) as [Hid Hk].
    destruct (dict_get_Forall _ _ _ _ Hov Hg) as (_ & H2 & H3 & H4 & H5).
    rewrite Forall_forall in Hoi.
    assert (Hin : In k (dict_keys (orders self)))
      by (apply dict_mem_keys, dict_mem_get; eauto).
    specialize (Hoi k Hin). repeat split; try assumption; lia.
Qed.

(** The invariants hold on the scenario ledger after its first order. *)
Lemma reachable_ledger_invariants_scenario :
  NoDup (dict_keys (orders sold_ledger)) /\
  forall k o, dict_get k (orders sold_ledger) = Some o ->
    Order.id o = k /\ 1 <= k < next_order_id sold_ledger.
Proof.
  destruct (reachable_ledger_invariants sold_ledger)
    as (_ & _ & _ & Hnd & _ & _ & Ho).
  - apply reachable_run, reachable_init.
  - split; [exact Hnd|]. intros k o Hg. destruct (Ho k o Hg) as (H1 & H2 & _).
    split; [exact H1 | exact H2].
Defined.



(** X4: for every ledger and every argument, [nan] included,
    [search_products] returns exactly the products its loop keeps (stock
    not zero, name containing the query, price not above the limit), each
    as often as the catalog lists it: sorting only rearranges. *)
Theorem search_products_rearranges self query max_price :
  Permutation (search_products query max_price self)
    (filter (keeps query max_price) (dict_values (products self))).
Proof.
  unfold search_products. rewrite search_loop_filter. simpl. apply sorted_perm.
Qed.


(* ================================================================== *)
(** * The script's helpers *)
(* ================================================================== *)

(** ** [_parse_script_args] *)

Lemma dict_get_set_string {V} (k k' : string) (v : V) (d : dict string V) :
  dict_get k' (dict_set k v d) = if String.eqb k' k then Some v else dict_get k' d.
Proof.
  destruct (String.eqb_spec k' k) as [->|Hne].
  - apply dict_get_set_same.
  - apply dict_get_set_other. congruence.
Qed.

Lemma parse_args_loop_pairs ps args :
  Forall flag_pair ps ->
  parse_args_loop (flat_pairs ps) args =
  Some (fold_left (fun d p => dict_set (fst p) (snd p) d) ps args).
Proof.
  revert args. induction ps as [|[flag val] ps IH]; intros args Hps; simpl;
    [reflexivity|].
  inversion Hps as [|? ? [Hf Hv] Hps']; subst. simpl in Hf, Hv.
  rewrite Hf, Hv. simpl. now apply IH.
Qed.

Lemma parse_args_loop_inv n rest args args' :
  (List.length rest <= n)%nat ->
  parse_args_loop rest args = Some args' ->
  exists ps,
    rest = flat_pairs ps /\ Forall flag_pair ps /\
    args' = fold_left (fun d p => dict_set (fst p) (snd p) d) ps args.
Proof.
  revert rest args. induction n as [|n IH]; intros rest args Hlen Hp.
  - destruct rest; [|simpl in Hlen; lia]. simpl in Hp. injection Hp as <-.
    exists []. repeat split. constructor.
  - destruct rest as [|flag [|val rest'']]; simpl in Hp.
    + injection Hp as <-. exists []. repeat split. constructor.
    + destruct (allowed flag); discriminate.
    + destruct (allowed flag) eqn:Ef; [|discriminate]. simpl in Hp.
      destruct (allowed val) eqn:Ev; [discriminate|].
      destruct (IH rest'' (dict_set flag val args)) as (ps & -> & Hps & ->);
        [simpl in Hlen; lia | assumption |].
      exists ((flag, val) :: ps). repeat split.
      constructor; [now split | assumption].
Qed.

Lemma fold_set_get flag ps (d : dict string string) :
  dict_get flag (fold_left (fun d p => dict_set (fst p) (snd p) d) ps d) =
  match last_value flag ps with
  | Some v => Some v
  | None => dict_get flag d
  end.
Proof.
  revert d. induction ps as [|[f v] ps IH]; intros d; simpl; [reflexivity|].
  rewrite IH. destruct (last_value flag ps); [reflexivity|].
  rewrite dict_get_set_string. now destruct (String.eqb flag f).
Qed.

(** X5: [_parse_script_args] returns a dictionary exactly for a command
    line that is a program name followed by pairs, each one of the flags
    [-l], [-s], [-o], [-os] and then a word that is not such a flag, with
    [-l] among the flags; the dictionary then maps each flag to the value
    of its last occurrence and holds nothing else.  Any other command line
    (empty, a flag without a value, an unknown flag, a flag as a value, no
    [-l]) gives [None]. *)
Theorem parse_script_args_pairs :
  (forall argv args,
     _parse_script_args argv = Some args ->
     exists prog ps,
       argv = prog :: flat_pairs ps /\ Forall flag_pair ps /\
       (exists log, dict_get "-l" args = Some log) /\
       (forall flag, dict_get flag args = last_value flag ps)) /\
  (forall prog ps,
     Forall flag_pair ps ->
     (last_value "-l" ps = None -> _parse_script_args (prog :: flat_pairs ps) = None) /\
     (last_value "-l" ps <> None ->
      exists args,
        _parse_script_args (prog :: flat_pairs ps) = Some args /\
        forall flag, dict_get flag args = last_value flag ps)) /\
  _parse_script_args [] = None.
Proof.
  split; [|split; [|reflexivity]].
  - intros argv args. unfold _parse_script_args.
    destruct (parse_args_loop (skipn 1 argv) []) as [args'|] eqn:Ep; [|discriminate].
    destruct (dict_mem "-l" args') eqn:Em; simpl; [|discriminate].
    intros [= <-].
    destruct (parse_args_loop_inv _ _ _ _ (le_n _) Ep) as (ps & Hrest & Hps & ->).
    destruct argv as [|prog rest].
    + destruct ps as [|[f v] ps]; [|discriminate]. simpl in Em. discriminate.
    + simpl in Hrest. subst rest. exists prog, ps.
      repeat split; try assumption.
      * apply dict_mem_get in Em. exact Em.
      * intros flag. rewrite fold_set_get. now destruct (last_value flag ps).
  - intros prog ps Hps. unfold _parse_script_args. simpl.
    rewrite parse_args_loop_pairs by assumption.
    unfold dict_mem. rewrite fold_set_get. simpl. split.
    + intros ->. reflexivity.
    + intros Hl. destruct (last_value "-l" ps) as [log|]; [|contradiction]. simpl.
      eexists. split; [reflexivity|].
      intros flag. rewrite fold_set_get. now destruct (last_value flag ps).
Qed.

(** A command line with two logs and an output file: the second log wins. *)
Lemma parse_script_args_pairs_scenario :
  exists args,
    _parse_script_args ["matamazon.py"; "-l"; "a.log"; "-o"; "out.json"; "-l"; "b.log"]
      = Some args /\
    dict_get "-l" args = Some "b.log" /\ dict_get "-o" args = Some "out.json" /\
    dict_get "-s" args = None.
Proof.
  destruct (proj2 (proj1 (proj2 parse_script_args_pairs) "matamazon.py"
                     [("-l", "a.log"); ("-o", "out.json"); ("-l", "b.log")]
                     ltac:(repeat constructor)))
    as (args & Hp & Hget); [discriminate|].
  exists args. split; [exact Hp|].
  split; [exact (Hget "-l") | split; [exact (Hget "-o") | exact (Hget "-s")]].
Defined.

(** ** [_decode_token] *)

Lemma decode_token_length tok :
  String.length (_decode_token tok) = String.length tok.
Proof. induction tok as [|c tok IH]; simpl; [reflexivity | now rewrite IH]. Qed.

(** The characters of a string. *)
Lemma decode_token_get tok n :
  String.get n (_decode_token tok) =
  match String.get n tok with
  | Some c => Some (if Ascii.eqb c "_" then " "%char else c)
  | None => None
  end.
Proof.
  revert n. induction tok as [|c tok IH]; intros n; simpl; [reflexivity|].
  destruct n; [reflexivity | apply IH].
Qed.

(** X6: [_decode_token] keeps the length of a token, turns every
    underscore into a space and leaves every other character where it is;
    so its result never holds an underscore, a token without underscores is
    returned as it is, and decoding twice is decoding once. *)
Theorem decode_token_spaces tok :
  String.length (_decode_token tok) = String.length tok /\
  (forall n c, String.get n tok = Some c ->
     String.get n (_decode_token tok) = Some (if Ascii.eqb c "_" then " "%char else c)) /\
  (forall n, String.get n (_decode_token tok) <> Some "_"%char) /\
  ((forall n, String.get n tok <> Some "_"%char) -> _decode_token tok = tok) /\
  _decode_token (_decode_token tok) = _decode_token tok.
Proof.
  split; [apply decode_token_length|]. split; [|split; [|split]].
  - intros n c Hg. now rewrite decode_token_get, Hg.
  - intros n. rewrite decode_token_get.
    destruct (String.get n tok) as [c|]; [|discriminate].
    destruct (Ascii.eqb_spec c "_"); [discriminate | congruence].
  - induction tok as [|c tok IH]; intros Hno; simpl; [reflexivity|].
    destruct (Ascii.eqb_spec c "_") as [->|_].
    + exfalso. now apply (Hno O).
    + f_equal. apply IH. intros n. apply (Hno (S n)).
  - induction tok as [|c tok IH]; simpl; [reflexivity|]. rewrite IH. f_equal.
    destruct (Ascii.eqb_spec c "_") as [->|Hne]; [reflexivity|].
    destruct (Ascii.eqb_spec c "_"); [contradiction | reflexivity].
Qed.


(* ================================================================== *)
(** * More about the ledger *)
(* ================================================================== *)

(** ** Class tokens *)

(** X7: [remove_object] reads its class token through
    [str(...).strip().lower()]: a token that becomes [customer], [product],
    [supplier] or [order] once surrounding white space is dropped and
    capitals are lowered acts exactly as that word; any other token, with a
    non-negative id, raises [InvalidIdException] with the token in the
    message and leaves the ledger unchanged. *)
Theorem remove_object_token self _id class_type :
  (forall word,
     In word class_tokens -> lower (strip class_type) = word ->
     remove_object _id class_type self = remove_object _id word self) /\
  (~ In (lower (strip class_type)) class_tokens -> 0 <= _id ->
   remove_object _id class_type self =
   (Raise (InvalidIdException ("Invalid class_type: " ++ class_type)), self)).
Proof.
  split.
  - intros word Hin Hw. destruct (Z.lt_ge_cases _id 0) as [Hneg|Hid].
    + unfold remove_object. unfold_method.
      now rewrite !validate_nonnegative_int_raises by assumption.
    + rewrite !remove_object_valid by assumption. cbv zeta. rewrite Hw.
      destruct Hin as [<- | [<- | [<- | [<- | []]]]]; reflexivity.
  - intros Hnot Hid. rewrite remove_object_valid by assumption. cbv zeta.
    unfold class_tokens in Hnot. simpl in Hnot.
    destruct (String.eqb_spec (lower (strip class_type)) "customer") as [E|_];
      [exfalso; apply Hnot; auto|].
    destruct (String.eqb_spec (lower (strip class_type)) "product") as [E|_];
      [exfalso; apply Hnot; auto|].
    destruct (String.eqb_spec (lower (strip class_type)) "supplier") as [E|_];
      [exfalso; apply Hnot; auto|].
    destruct (String.eqb_spec (lower (strip class_type)) "order") as [E|_];
      [exfalso; apply Hnot; auto 6|].
    reflexivity.
Qed.

(** On the scenario ledger, [" Order "] removes order 1 as ["order"] does,
    and ["orders"] is refused. *)
Lemma remove_object_token_scenario :
  remove_object 1 " Order " sold_ledger = remove_object 1 "order" sold_ledger /\
  remove_object 1 "orders" sold_ledger =
    (Raise (InvalidIdException "Invalid class_type: orders"), sold_ledger).
Proof.
  split.
  - apply (proj1 (remove_object_token sold_ledger 1 " Order ") "order");
      [simpl; auto 6 | reflexivity].
  - apply (proj2 (remove_object_token sold_ledger 1 "orders")); [|lia].
    simpl. intros [H | [H | [H | [H | []]]]]; discriminate.
Defined.

(** ** Orders and their products *)

Lemma order_products_exist_grow self after :
  orders after = orders self ->
  (forall k, dict_mem k (products self) = true -> dict_mem k (products after) = true) ->
  order_products_exist self -> order_products_exist after.
Proof.
  unfold order_products_exist. intros -> Hgrow Hall.
  eapply Forall_impl; [|exact Hall]. simpl. intros o. apply Hgrow.
Qed.

Lemma register_entity_frame entity is_customer self :
  products (snd (register_entity entity is_customer self)) = products self /\
  orders (snd (register_entity entity is_customer self)) = orders self /\
  next_order_id (snd (register_entity entity is_customer self)) = next_order_id self.
Proof.
  unfold register_entity. unfold_method.
  destruct (validate_nonnegative_int _ _); simpl; [|auto].
  destruct (_ || _); simpl; [auto|]. destruct is_customer; simpl; auto.
Qed.

Lemma add_or_update_product_frame product self :
  orders (snd (add_or_update_product product self)) = orders self /\
  customers (snd (add_or_update_product product self)) = customers self /\
  suppliers (snd (add_or_update_product product self)) = suppliers self /\
  next_order_id (snd (add_or_update_product product self)) = next_order_id self /\
  (forall k, dict_mem k (products self) = true ->
     dict_mem k (products (snd (add_or_update_product product self))) = true).
Proof.
  rewrite add_or_update_product_cases.
  destruct (negb _); simpl; [auto 6|].
  destruct (dict_get _ _) as [existing|]; simpl.
  - destruct (negb _); simpl; [auto 6|]. repeat split.
    intros k Hk. rewrite dict_mem_set, Hk. apply orb_true_r.
  - repeat split. intros k Hk. rewrite dict_mem_set, Hk. apply orb_true_r.
Qed.

Lemma exec_order_products_exist c self :
  order_products_exist self -> order_products_exist (exec c self).
Proof.
  intros Hall. destruct c as [entity is_customer | id name price sid q | cid pid q | i ct];
    simpl.
  - destruct (register_entity_frame entity is_customer self) as (Hp & Ho & _).
    apply (order_products_exist_grow self); [assumption | | assumption].
    intros k. now rewrite Hp.
  - destruct (Product.init _ _ _ _ _) as [product|e]; [|assumption].
    destruct (add_or_update_product_frame product self) as (Ho & _ & _ & _ & Hgrow).
    now apply (order_products_exist_grow self).
  - destruct (Z.lt_ge_cases cid 0) as [H1|H1];
      [destruct (place_order_invalid cid pid q self) as [m ->];
       [now left | assumption]|].
    destruct (Z.lt_ge_cases pid 0) as [H2|H2];
      [destruct (place_order_invalid cid pid q self) as [m ->];
       [right; now left | assumption]|].
    destruct (Z.lt_ge_cases q 0) as [H3|H3];
      [destruct (place_order_invalid cid pid q self) as [m ->];
       [right; now right | assumption]|].
    rewrite place_order_valid by assumption.
    destruct (dict_get pid (products self)) as [product|] eqn:Eg; [|assumption].
    destruct (q >? Product.quantity product); [assumption|].
    assert (Hgrow : order_products_exist (stock_taken pid q product self)).
    { apply (order_products_exist_grow self); [reflexivity | | assumption].
      intros k Hk. simpl. rewrite dict_mem_set, Hk. apply orb_true_r. }
    destruct (float_mul_int _ _) as [tp|e]; [|assumption].
    destruct (Order.init _ _ _ _ _) as [order|e] eqn:Eo; [|assumption].
    apply Order_init_wf in Eo. destruct Eo as (_ & _ & _ & Hpid & _).
    unfold order_products_exist in *. simpl in *.
    apply dict_values_set_Forall; [|assumption].
    rewrite Hpid, dict_mem_set, Z.eqb_refl. reflexivity.
  - destruct (Z.lt_ge_cases i 0) as [Hneg|Hid].
    { destruct (remove_object_invalid i ct self Hneg) as [m ->]. assumption. }
    rewrite remove_object_valid by assumption. cbv zeta.
    destruct (String.eqb _ "customer").
    { destruct (negb _); [assumption|]. destruct (existsb _ _); assumption. }
    destruct (String.eqb _ "product").
    { destruct (negb _); [assumption|].
      destruct (existsb _ _) eqn:Ee; [assumption|].
      unfold order_products_exist in *. simpl.
      rewrite Forall_forall in *. intros o Ho. specialize (Hall o Ho).
      assert (Hne : Order.product_id o <> i).
      { intros Heq. assert (Ht : existsb (fun o => Order.product_id o =? i)
                                   (dict_values (orders self)) = true).
        { apply existsb_exists. exists o. split; [assumption | now apply Z.eqb_eq]. }
        congruence. }
      unfold dict_mem in *. rewrite dict_get_del_other by congruence. exact Hall. }
    destruct (String.eqb _ "supplier").
    { destruct (negb _); [assumption|]. destruct (existsb _ _); assumption. }
    destruct (String.eqb _ "order"); [|assumption].
    destruct (dict_get i (orders self)) as [order|]; [|assumption].
    unfold order_removed, order_products_exist in *.
    destruct (dict_get (Order.product_id order) (products self)) as [p|]; simpl.
    + apply dict_values_del_Forall. eapply Forall_impl; [|exact Hall].
      simpl. intros o Ho. rewrite dict_mem_set, Ho. apply orb_true_r.
    + now apply dict_values_del_Forall.
Qed.

(** X8: in every ledger that calls can produce, every order is for a
    product that is still in the catalog: an order can only be placed on an
    existing product, and a product cannot be removed while an order is for
    it.  So removing an order of such a ledger always finds its product and
    returns the stock to it. *)
Theorem reachable_orders_have_products self :
  reachable self ->
  forall k o,
    dict_get k (orders self) = Some o ->
    exists p,
      dict_get (Order.product_id o) (products self) = Some p /\
      dict_get (Order.product_id o) (products (snd (remove_object k "order" self))) =
        Some (Product.set_quantity (Product.quantity p + Order.quantity o) p).
Proof.
  intros Hr k o Hg.
  assert (Hall : order_products_exist self).
  { clear k o Hg. induction Hr as [|c s Hr IH]; [constructor|].
    now apply exec_order_products_exist. }
  unfold order_products_exist in Hall. rewrite Forall_forall in Hall.
  specialize (Hall o (dict_get_values _ _ _ Hg)).
  apply dict_mem_get in Hall. destruct Hall as [p Hp].
  exists p. split; [assumption|].
  destruct (keyed_get _ _ _ _ (wf_orders self (reachable_wf self Hr)) Hg) as [_ Hk].
  rewrite remove_object_valid by assumption. cbv zeta. simpl.
  rewrite Hg. simpl. unfold order_removed. rewrite Hp. simpl.
  apply dict_get_set_same.
Qed.

(** Order 1 of the scenario ledger is for product 10, which is on file. *)
Lemma reachable_orders_have_products_scenario :
  exists p, dict_get 10 (products sold_ledger) = Some p.
Proof.
  destruct (reachable_orders_have_products sold_ledger
              (reachable_run _ _ reachable_init) 1 (Order.mk 1 7 10 2 5.0) eq_refl)
    as (p & Hp & _).
  exists p. exact Hp.
Defined.

(** ** Stock accounting *)

Lemma allocated_values self pid :
  allocated self pid =
  fold_right
    (fun o acc => if Order.product_id o =? pid then Order.quantity o + acc else acc)
    0 (dict_values (orders self)).
Proof. reflexivity. Qed.

Lemma allocated_same self after pid :
  orders after = orders self -> allocated after pid = allocated self pid.
Proof. intros E. now rewrite !allocated_values, E. Qed.

Lemma allocated_appended self after pid k o :
  orders after = (orders self ++ [(k, o)])%list ->
  allocated after pid =
  allocated self pid + (if Order.product_id o =? pid then Order.quantity o else 0).
Proof.
  intros E. rewrite !allocated_values, E. unfold dict_values. rewrite map_app. simpl.
  induction (map snd (orders self)) as [|x l IH]; simpl.
  - destruct (Order.product_id o =? pid); lia.
  - rewrite IH. destruct (Order.product_id x =? pid); lia.
Qed.

Lemma allocated_deleted self after pid k o :
  NoDup (dict_keys (orders self)) ->
  dict_get k (orders self) = Some o ->
  orders after = dict_del k (orders self) ->
  allocated after pid =
  allocated self pid - (if Order.product_id o =? pid then Order.quantity o else 0).
Proof.
  intros Hnd Hg E. rewrite !allocated_values, E. clear E.
  induction (orders self) as [|[k' o'] d IH]; simpl in *; [discriminate|].
  inversion Hnd as [|? ? Hnotin Hnd']; subst.
  destruct (k =? k') eqn:Ek.
  - injection Hg as ->. destruct (Order.product_id o =? pid); lia.
  - simpl. rewrite (IH Hnd' Hg). destruct (Order.product_id o' =? pid); lia.
Qed.

(** X9: placing and cancelling orders move units between the stock and the
    orders without creating or losing any: in a well-formed ledger, for
    every product of the catalog, the stock plus the units held by orders
    for it is the same before and after a [place_order] that returns (with
    an acceptance or a rejection) and before and after any
    [remove_object(id, "order")]. *)
Theorem stock_plus_orders_conserved self :
  wf self ->
  (forall customer_id product_id quantity msg,
     fst (place_order customer_id product_id quantity self) = Ok msg ->
     forall pid p,
       dict_get pid (products self) = Some p ->
       exists p',
         dict_get pid (products (snd (place_order customer_id product_id quantity self)))
           = Some p' /\
         Product.quantity p' +
           allocated (snd (place_order customer_id product_id quantity self)) pid =
         Product.quantity p + allocated self pid) /\
  (forall _id pid p,
     dict_get pid (products self) = Some p ->
     exists p',
       dict_get pid (products (snd (remove_object _id "order" self))) = Some p' /\
       Product.quantity p' + allocated (snd (remove_object _id "order" self)) pid =
       Product.quantity p + allocated self pid).
Proof.
  intros Hwf. split.
  - intros cid prod q msg Hok pid p Hp.
    destruct (Z.lt_ge_cases cid 0) as [H1|H1];
      [destruct (place_order_invalid cid prod q self) as [m Hm];
       [now left | rewrite Hm in Hok; discriminate]|].
    destruct (Z.lt_ge_cases prod 0) as [H2|H2];
      [destruct (place_order_invalid cid prod q self) as [m Hm];
       [right; now left | rewrite Hm in Hok; discriminate]|].
    destruct (Z.lt_ge_cases q 0) as [H3|H3];
      [destruct (place_order_invalid cid prod q self) as [m Hm];
       [right; now right | rewrite Hm in Hok; discriminate]|].
    revert Hok. rewrite place_order_valid by assumption.
    destruct (dict_get prod (products self)) as [product|] eqn:Eg; [|eauto].
    destruct (q >? Product.quantity product); [eauto|].
    destruct (float_mul_int _ _) as [tp|e]; [|discriminate].
    destruct (Order.init _ _ _ _ _) as [order|e] eqn:Eo; [|discriminate].
    intros _. apply Order_init_wf in Eo. destruct Eo as (_ & _ & _ & Hpid & Hq & _).
    simpl.
    rewrite (allocated_appended self _ pid (next_order_id self) order)
      by (simpl; apply dict_set_absent; now apply next_order_id_fresh).
    rewrite Hpid, Hq.
    destruct (Z.eqb_spec prod pid) as [->|Hne].
    + rewrite dict_get_set_same. rewrite Hp in Eg. injection Eg as <-.
      eexists. split; [reflexivity|]. simpl. lia.
    + rewrite dict_get_set_other by assumption. exists p. split; [assumption | lia].
  - intros i pid p Hp. destruct (Z.lt_ge_cases i 0) as [Hneg|Hid].
    { destruct (remove_object_invalid i "order" self Hneg) as [m ->]. eauto. }
    rewrite remove_object_valid by assumption. cbv zeta. simpl.
    destruct (dict_get i (orders self)) as [order|] eqn:Eo; [|eauto].
    simpl. unfold order_removed.
    destruct (wf_orders self Hwf) as [Hnd _].
    destruct (dict_get (Order.product_id order) (products self)) as [op|] eqn:Eop; simpl.
    + rewrite (allocated_deleted self _ pid i order Hnd Eo) by reflexivity.
      destruct (Z.eqb_spec (Order.product_id order) pid) as [Heq|Hne].
      * rewrite Heq in *. rewrite dict_get_set_same. rewrite Hp in Eop.
        injection Eop as <-. eexists. split; [reflexivity|]. simpl. lia.
      * rewrite dict_get_set_other by assumption. exists p. split; [assumption | lia].
    + rewrite (allocated_deleted self _ pid i order Hnd Eo) by reflexivity.
      destruct (Z.eqb_spec (Order.product_id order) pid) as [Heq|Hne];
        [rewrite Heq in *; congruence|].
      exists p. split; [assumption | lia].
Qed.

(** On the scenario ledger: three widgets in stock and none on order
    before [place_order(7, 10, 2)], one in stock and two on order after. *)
Lemma stock_plus_orders_conserved_scenario :
  allocated widget_ledger 10 = 0 /\ allocated sold_ledger 10 = 2 /\
  exists p',
    dict_get 10 (products (snd (place_order 7 10 2 widget_ledger))) = Some p' /\
    Product.quantity p' + allocated (snd (place_order 7 10 2 widget_ledger)) 10 = 3 + 0.
Proof.
  split; [reflexivity|]. split; [reflexivity|].
  exact (proj1 (stock_plus_orders_conserved widget_ledger (run_wf _))
           7 10 2 msg_accepted eq_refl 10 (Product.mk 10 "Widget" 2.5 1 3) eq_refl).
Defined.

(** ** Placing and cancelling *)

Lemma dict_del_appended {V} (k : Z) (v : V) (d : dict Z V) :
  dict_mem k d = false -> dict_del k (d ++ [(k, v)])%list = d.
Proof.
  unfold dict_mem. induction d as [|[k' v'] d IH]; simpl.
  - now rewrite Z.eqb_refl.
  - destruct (k =? k'); [discriminate|]. intros Hm. now rewrite IH.
Qed.

Lemma dict_set_set {V} (k : Z) (v v' : V) (d : dict Z V) :
  dict_set k v (dict_set k v' d) = dict_set k v d.
Proof.
  induction d as [|[k' w] d IH]; simpl.
  - now rewrite Z.eqb_refl.
  - destruct (k =? k') eqn:E; simpl; rewrite E; [reflexivity | now rewrite IH].
Qed.

Lemma dict_set_stored {V} (k : Z) (v : V) (d : dict Z V) :
  dict_get k d = Some v -> dict_set k v d = d.
Proof.
  induction d as [|[k' w] d IH]; simpl; [discriminate|].
  destruct (k =? k') eqn:E.
  - intros [= ->]. reflexivity.
  - intros Hg. now rewrite IH.
Qed.

(** What an accepted placement stored. *)
Lemma place_order_accepted_order self customer_id product_id quantity :
  wf self ->
  fst (place_order customer_id product_id quantity self) = Ok msg_accepted ->
  exists product total_price,
    dict_get product_id (products self) = Some product /\
    0 <= quantity <= Product.quantity product /\
    0 <= product_id /\
    snd (place_order customer_id product_id quantity self) =
    set_orders
      (fun orders =>
         (orders ++ [(next_order_id self,
                      Order.mk (next_order_id self) customer_id product_id quantity
                        total_price)])%list)
      (stock_taken product_id quantity product self).
Proof.
  intros Hwf.
  destruct (Z.lt_ge_cases customer_id 0) as [H1|H1];
    [destruct (place_order_invalid customer_id product_id quantity self) as [m ->];
     [now left | discriminate]|].
  destruct (Z.lt_ge_cases product_id 0) as [H2|H2];
    [destruct (place_order_invalid customer_id product_id quantity self) as [m ->];
     [right; now left | discriminate]|].
  destruct (Z.lt_ge_cases quantity 0) as [H3|H3];
    [destruct (place_order_invalid customer_id product_id quantity self) as [m ->];
     [right; now right | discriminate]|].
  rewrite place_order_valid by assumption.
  destruct (dict_get product_id (products self)) as [product|]; [|discriminate].
  destruct (quantity >? Product.quantity product) eqn:Eq; [discriminate|].
  destruct (float_mul_int _ _) as [tp|e]; [|discriminate].
  destruct (Order.init _ _ _ _ _) as [order|e] eqn:Eo; [|discriminate].
  intros _. apply Order_init_wf in Eo.
  destruct Eo as (_ & Hoid & Hoc & Hop & Hoq & _).
  rewrite Z.gtb_ltb in Eq. apply Z.ltb_ge in Eq.
  exists product, (Order.total_price order). repeat split; try assumption; try lia.
  simpl. unfold set_orders. simpl.
  rewrite (dict_set_absent (V:=Order.t)) by now apply next_order_id_fresh.
  destruct order; simpl in *; subst. reflexivity.
Qed.

(** X10: cancelling an order right after it was accepted undoes the
    placement: in a well-formed ledger, when [place_order] is accepted,
    removing the order it created returns the ordered quantity and leaves
    the ledger exactly as it was before the placement, except that the
    order-id counter stays advanced by one. *)
Theorem place_then_cancel self customer_id product_id quantity :
  wf self ->
  fst (place_order customer_id product_id quantity self) =
    Ok "The order has been accepted in the system" ->
  remove_object (next_order_id self) "order"
    (snd (place_order customer_id product_id quantity self)) =
  (Ok (Some quantity), set_next_order_id (next_order_id self + 1) self).
Proof.
  intros Hwf Hok.
  destruct (place_order_accepted_order self customer_id product_id quantity Hwf Hok)
    as (product & tp & Hg & Hq & Hp & ->).
  pose proof (wf_next_order_id self Hwf) as Hn.
  pose proof (next_order_id_fresh self Hwf) as Hfresh.
  rewrite remove_object_valid by lia. cbv zeta.
  change (lower (strip "order")) with "order". simpl.
  rewrite <- (dict_set_absent (V:=Order.t)) by assumption.
  rewrite dict_get_set_same. simpl. f_equal.
  unfold order_removed. simpl. rewrite dict_get_set_same. simpl.
  unfold set_products, set_orders, stock_taken, set_next_order_id. simpl.
  rewrite dict_set_set, dict_del_appended by assumption.
  replace (Product.set_quantity _ _) with product
    by (destruct product; unfold Product.set_quantity; simpl; f_equal; lia).
  rewrite dict_set_stored by assumption.
  reflexivity.
Qed.

(** On the scenario ledger: order 1 placed and cancelled leaves the ledger
    as it was, with 2 as the next order id. *)
Lemma place_then_cancel_scenario :
  remove_object 1 "order" (snd (place_order 7 10 2 widget_ledger)) =
  (Ok (Some 2), set_next_order_id 2 widget_ledger).
Proof.
  exact (place_then_cancel widget_ledger 7 10 2 (run_wf _) eq_refl).
Defined.

(** ** Registering and removing *)

Lemma dict_del_set_absent {V} (k : Z) (v : V) (d : dict Z V) :
  dict_mem k d = false -> dict_del k (dict_set k v d) = d.
Proof.
  intros Hm. rewrite dict_set_absent by assumption. now apply dict_del_appended.
Qed.

Lemma reachable_order_products_exist self :
  reachable self -> order_products_exist self.
Proof.
  induction 1 as [|c s Hr IH]; [constructor|].
  now apply exec_order_products_exist.
Qed.



(** X12: adding a product can always be undone in a ledger that calls can
    produce.  When [add_or_update_product] succeeds for a product whose id
    is new to the catalog (and non-negative, as the constructor ensures),
    no order can be for it, so removing it again succeeds and gives back
    exactly the ledger from before the addition. *)
Theorem add_then_remove self product :
  reachable self ->
  0 <= Product.id product ->
  dict_mem (Product.id product) (products self) = false ->
  fst (add_or_update_product product self) = Ok tt ->
  remove_object (Product.id product) "product"
    (snd (add_or_update_product product self)) = (Ok None, self).
Proof.
  intros Hr Hid Hnew. pose proof (reachable_order_products_exist self Hr) as Hall.
  rewrite add_or_update_product_cases.
  destruct (negb _); [discriminate|].
  destruct (dict_get (Product.id product) (products self)) as [e|] eqn:Ee;
    [unfold dict_mem in Hnew; rewrite Ee in Hnew; discriminate|].
  simpl. intros _. rewrite remove_object_valid by assumption. cbv zeta.
  change (lower (strip "product")) with "product". simpl.
  rewrite dict_mem_set, Z.eqb_refl. simpl.
  assert (Hfree : existsb (fun o => Order.product_id o =? Product.id product)
                    (dict_values (orders self)) = false).
  { apply not_true_is_false. intros Ht. apply existsb_exists in Ht.
    destruct Ht as (o & Ho & Heq). apply Z.eqb_eq in Heq.
    unfold order_products_exist in Hall. rewrite Forall_forall in Hall.
    specialize (Hall o Ho). congruence. }
  rewrite Hfree. unfold set_products. simpl.
  rewrite dict_del_set_absent by assumption. destruct self; reflexivity.
Qed.

(** A second product added to the scenario ledger and removed again. *)
Lemma add_then_remove_scenario :
  remove_object 11 "product"
    (snd (add_or_update_product (Product.mk 11 "Gadget" 4 1 8) widget_ledger)) =
  (Ok None, widget_ledger).
Proof.
  apply (add_then_remove widget_ledger (Product.mk 11 "Gadget" 4 1 8)).
  - apply reachable_run, reachable_init.
  - simpl. lia.
  - reflexivity.
  - reflexivity.
Defined.

(** X13: what an upsert stores is what a lookup returns.  In a well-formed
    ledger, after [add_or_update_product] succeeds the catalog holds under
    the product's id an object equal to the product passed in, field by
    field (on an update only name, price and quantity are assigned, and the
    two fields left alone already agree); every other catalog entry is
    untouched, an update keeps the catalog's order and an addition puts the
    product last. *)
Theorem upsert_then_lookup self product :
  wf self ->
  fst (add_or_update_product product self) = Ok tt ->
  let after := snd (add_or_update_product product self) in
  dict_get (Product.id product) (products after) = Some product /\
  (forall k, k <> Product.id product ->
     dict_get k (products after) = dict_get k (products self)) /\
  dict_keys (products after) =
    (if dict_mem (Product.id product) (products self)
     then dict_keys (products self)
     else dict_keys (products self) ++ [Product.id product])%list.
Proof.
  intros Hwf. rewrite add_or_update_product_cases.
  destruct (negb _); [discriminate|]. unfold dict_mem.
  destruct (dict_get (Product.id product) (products self)) as [e|] eqn:Ee.
  - destruct (Product.supplier_id e =? Product.supplier_id product) eqn:Es;
      [|discriminate].
    simpl. intros _. apply Z.eqb_eq in Es.
    destruct (keyed_get _ _ _ _ (wf_products self Hwf) Ee) as [Hk _].
    replace (Product.mk _ _ _ _ _) with product
      by (destruct product; simpl in *; congruence).
    split; [apply dict_get_set_same|]. split.
    + intros k Hk'. apply dict_get_set_other. congruence.
    + rewrite dict_keys_set. unfold dict_mem. now rewrite Ee.
  - simpl. intros _. split; [apply dict_get_set_same|]. split.
    + intros k Hk'. apply dict_get_set_other. congruence.
    + rewrite dict_keys_set. unfold dict_mem. now rewrite Ee.
Qed.

(** The widget of the scenario ledger renamed, repriced and restocked. *)
Lemma upsert_then_lookup_scenario :
  dict_get 10
    (products (snd (add_or_update_product (Product.mk 10 "Gadget" 4 1 8) widget_ledger))) =
  Some (Product.mk 10 "Gadget" 4 1 8).
Proof.
  exact (proj1 (upsert_then_lookup widget_ledger (Product.mk 10 "Gadget" 4 1 8)
                  (run_wf _) eq_refl)).
Defined.

(** ** Outcomes *)




(** ** Searching with a shorter query *)

Lemma string_app_assoc (a b c : string) : ((a ++ b) ++ c = a ++ (b ++ c))%string.
Proof. induction a as [|x a IH]; simpl; [reflexivity | now rewrite IH]. Qed.

Lemma str_contains_trans q' q s :
  str_contains q' q = true -> str_contains q s = true -> str_contains q' s = true.
Proof.
  rewrite !str_contains_spec. intros (pre' & post' & ->) (pre & post & ->).
  exists (pre ++ pre')%string, (post' ++ post)%string.
  now rewrite !string_app_assoc.
Qed.

(** X16: a part of a query finds at least as much as the query.  When
    [query'] occurs in [query], every product that [search_products]
    returns for [query] it also returns for [query'] under the same price
    limit; in particular the empty query returns every product that any
    query returns. *)
Theorem search_products_shorter_query self query query' max_price p :
  str_contains query' query = true ->
  In p (search_products query max_price self) ->
  In p (search_products query' max_price self) /\
  In p (search_products EmptyString max_price self).
Proof.
  intros Hsub Hin.
  assert (Hperm : forall q,
            Permutation (search_products q max_price self)
              (filter (keeps q max_price) (dict_values (products self)))).
  { intros q. unfold search_products. rewrite search_loop_filter. simpl.
    apply sorted_perm. }
  apply (Permutation_in _ (Hperm query)) in Hin.
  apply filter_In in Hin. destruct Hin as [Hin Hk].
  unfold keeps in Hk. apply andb_true_iff in Hk. destruct Hk as [Hk Hlim].
  apply andb_true_iff in Hk. destruct Hk as [Hq Hname].
  assert (Hfound : forall q, str_contains q query = true ->
            In p (search_products q max_price self)).
  { intros q Hq'. apply (Permutation_in _ (Permutation_sym (Hperm q))).
    apply filter_In. split; [assumption|]. unfold keeps.
    rewrite Hq, Hlim, (str_contains_trans q query _ Hq' Hname). reflexivity. }
  split; [now apply Hfound|]. apply Hfound. now destruct query.
Qed.

(** The widget found under its name is found under a part of it. *)
Lemma search_products_shorter_query_scenario :
  In (Product.mk 10 "Widget" 2.5 1 3) (search_products "dge" None widget_ledger).
Proof.
  apply (search_products_shorter_query widget_ledger "Widget" "dge" None).
  - reflexivity.
  - left. reflexivity.
Defined.

(** ** An export without orders *)

Lemma exported_nil self os :
  exported self os = [] <-> forall o, In o os -> order_city self o = None.
Proof.
  induction os as [|o os IH]; simpl.
  - split; [intros _ o [] | reflexivity].
  - destruct (order_city self o) as [c|] eqn:Ec.
    + split; [discriminate|]. intros Hall.
      specialize (Hall o (or_introl eq_refl)). congruence.
    + rewrite IH. split.
      * intros Hall o' [<-|Hin]; [assumption | now apply Hall].
      * intros Hall o' Hin. apply Hall. now right.
Qed.

(** X17: [export_orders] writes the empty JSON object [{}] exactly when no
    order of the ledger is exported, that is when every order is skipped
    because its product is not in the catalog or that product's supplier is
    not registered; in particular when there is no order at all. *)
Theorem export_orders_empty self :
  export_orders self = "{}" <->
  forall o, In o (dict_values (orders self)) -> order_city self o = None.
Proof.
  rewrite <- exported_nil. unfold export_orders, export_orders_grouped.
  rewrite export_loop_fold.
  change (@nil (string * list string)) with (grouped_by_city []).
  rewrite export_fold_grouped.
  simpl. destruct (exported self (dict_values (orders self))) as [|[c o] l].
  - split; reflexivity.
  - split; [|discriminate]. unfold grouped_by_city. simpl.
    unfold json_dumps. simpl.
    destruct (map _ (filter _ (first_seen (map fst l)))); simpl; discriminate.
Qed.

(** ** The order of products, as a strict order *)

(** X18: on products whose prices are numbers, [__lt__] is a strict order
    that decides every pair of distinct ids: no product is below itself,
    below is transitive, and of two products with different ids exactly one
    is below the other.  (With a [nan] price none of this is left, see
    C7.) *)
Theorem Product_lt_strict_order a b c :
  is_number (Product.price a) -> is_number (Product.price b) ->
  is_number (Product.price c) ->
  Product.lt a a = false /\
  (Product.lt a b = true -> Product.lt b c = true -> Product.lt a c = true) /\
  (Product.id a <> Product.id b -> Product.lt a b = negb (Product.lt b a)).
Proof.
  intros Ha Hb Hc. split; [now apply Product_lt_irrefl|]. split.
  - product_keys. lia.
  - intros Hne. destruct (Product.lt b a) eqn:E; simpl.
    + now apply Product_lt_asym.
    + now apply Product_lt_total.
Qed.

(** A widget at 1.0 is below one at 1.5, and not the other way round. *)
Lemma Product_lt_strict_order_scenario :
  Product.lt (Product.mk 3 "Widget C" 1 1 5) (Product.mk 1 "Widget A" 1.5 1 5) =
  negb (Product.lt (Product.mk 1 "Widget A" 1.5 1 5) (Product.mk 3 "Widget C" 1 1 5)).
Proof.
  apply (Product_lt_strict_order (Product.mk 3 "Widget C" 1 1 5)
           (Product.mk 1 "Widget A" 1.5 1 5) (Product.mk 2 "Widget B" 1.5 1 5)
           eq_refl eq_refl eq_refl).
  simpl. lia.
Defined.
